(** * fmrapi: a client of the Fusion Metadata Registry REST API

    Shallow embedding of [src/fmrapi/fmrapi.py] and the properties of
    its six functions.

    - Python values are modelled as the interpreter has them: a [str] is a
      sequence of code points, [bytes] a sequence of octets, a decoded JSON
      document a tree of [None], [bool], [int], [str], [list] and [dict]
      (insertion-ordered).  JSON numbers are integers here; floating point
      numbers are outside the model.
    - Subscription, iteration, truth value and attribute access follow the
      Python data model and raise the exceptions Python raises.
    - The registry is an arbitrary deterministic server: a state and a
      handler.  Every call of [requests], [open], [time.sleep], [print]
      and the logger is recorded in a trace.
    - A function body is a computation in a state and exception monad over
      that world; [exit()] is a third outcome next to returning and
      raising. *)

From Stdlib Require Import ZArith NArith List String Ascii Bool Lia.
Import ListNotations.

Set Implicit Arguments.
Set Warnings "-register-all".


(** ** Python strings and bytes *)

Module Py.

(** A [str] is a sequence of code points, [bytes] a sequence of octets. *)
Definition str := list N.
Definition bytes := list N.

(** A string literal of the source. *)
Definition lit (s : string) : str :=
  map N_of_ascii (list_ascii_of_string s).

Fixpoint str_eqb (a b : str) : bool :=
  match a, b with
  | [], [] => true
  | x :: a', y :: b' => N.eqb x y && str_eqb a' b'
  | _, _ => false
  end.

(** [prefix in s] at the head of [s]. *)
Fixpoint starts_with (p s : str) : bool :=
  match p, s with
  | [], _ => true
  | x :: p', y :: s' => N.eqb x y && starts_with p' s'
  | _ :: _, [] => false
  end.

(** [needle in s] on two strings: substring search. *)
Fixpoint str_contains (needle s : str) : bool :=
  starts_with needle s ||
  match s with
  | [] => false
  | _ :: s' => str_contains needle s'
  end.

(** [s.removeprefix(p)], as an option: [None] when [s] does not start
    with [p]. *)
Fixpoint strip_prefix (p s : str) : option str :=
  match p, s with
  | [], _ => Some s
  | x :: p', y :: s' => if N.eqb x y then strip_prefix p' s' else None
  | _ :: _, [] => None
  end.

(** Code points of a Python [str] lie below 0x110000. *)
Definition is_code_point (c : N) : bool := (c <? 0x110000)%N.

(** The surrogate range U+D800..U+DFFF, which the utf-8 codec refuses. *)
Definition is_surrogate (c : N) : bool := ((0xD800 <=? c) && (c <=? 0xDFFF))%N.

(** What [bytes(s, 'utf-8')] accepts: code points that are not
    surrogates. *)
Definition is_scalar (c : N) : bool := is_code_point c && negb (is_surrogate c).

Definition encodable (s : str) : bool := forallb is_scalar s.

End Py.

Import Py.

(** ** Decoded JSON documents

    What [json.loads] builds: [None], [bool], [int], [str], [list] and a
    [dict] with [str] keys in insertion order. *)

Inductive json :=
| JNull
| JBool (b : bool)
| JNum (n : Z)
| JStr (s : str)
| JList (l : list json)
| JDict (d : list (str * json)).

(** ** Exceptions and outcomes *)

Inductive exn :=
| KeyError (key : json)
| IndexError
| TypeError
| AttributeError (name : str)
| UnboundLocalError (name : str)
| JSONDecodeError
| UnicodeEncodeError
| UnicodeDecodeError
| RequestException
| OSError
| ValueError.

(** The result of evaluating a piece of Python: a value, a raised
    exception, or the interpreter leaving through [exit()]. *)
Inductive outcome (A : Type) :=
| Return (a : A)
| Raise (e : exn)
| Exit.

Arguments Return {A} a.
Arguments Raise {A} e.
Arguments Exit {A}.

Definition obind {A B} (o : outcome A) (k : A -> outcome B) : outcome B :=
  match o with
  | Return a => k a
  | Raise e => Raise e
  | Exit => Exit
  end.

Declare Scope outcome_scope.
Delimit Scope outcome_scope with outcome.
Notation "x <- c ;; k" := (obind c (fun x => k))
  (at level 61, c at next level, right associativity) : outcome_scope.

(** A loop over [l] that threads an accumulator through its body [f]. *)
Fixpoint ofold {A S} (f : S -> A -> outcome S) (l : list A) (s : S) : outcome S :=
  match l with
  | [] => Return s
  | a :: l' => obind (f s a) (ofold f l')
  end.

(** A comprehension or an appending loop over [l] whose body is [f]: the
    first exception ends it. *)
Fixpoint omap {A B} (f : A -> outcome B) (l : list A) : outcome (list B) :=
  match l with
  | [] => Return []
  | a :: l' =>
      (b <- f a ;; bs <- omap f l' ;; Return (b :: bs))%outcome
  end.

(** ** The codecs of the standard library used by [fmr_auth] *)

Module Codec.

Local Open Scope N_scope.

(** The utf-8 encoding of one code point (strict error handler). *)
Definition utf8_encode_char (c : N) : outcome bytes :=
  if c <? 0x80 then Return [c]
  else if c <? 0x800 then Return [0xC0 + c / 64; 0x80 + c mod 64]
  else if c <? 0x10000 then
    if is_surrogate c then Raise UnicodeEncodeError
    else Return [0xE0 + c / 4096; 0x80 + (c / 64) mod 64; 0x80 + c mod 64]
  else if c <? 0x110000 then
    Return [0xF0 + c / 262144; 0x80 + (c / 4096) mod 64;
            0x80 + (c / 64) mod 64; 0x80 + c mod 64]
  else Raise UnicodeEncodeError.

(** [bytes(s, 'utf-8')], also [s.encode('utf-8')]. *)
Fixpoint utf8_encode (s : str) : outcome bytes :=
  match s with
  | [] => Return []
  | c :: s' =>
      (b <- utf8_encode_char c ;; bs <- utf8_encode s' ;; Return (b ++ bs))%outcome
  end.

Definition is_cont (b : N) : bool := (0x80 <=? b) && (b <? 0xC0).

(** [b.decode('utf-8')] with the strict error handler: overlong forms,
    surrogates and values above U+10FFFF are refused. *)
Fixpoint utf8_decode (b : bytes) : option str :=
  match b with
  | [] => Some []
  | b0 :: r0 =>
      if b0 <? 0x80 then option_map (cons b0) (utf8_decode r0)
      else if b0 <? 0xC0 then None
      else if b0 <? 0xE0 then
        match r0 with
        | b1 :: r1 =>
            let c := (b0 - 0xC0) * 64 + (b1 - 0x80) in
            if is_cont b1 && (0x80 <=? c)
            then option_map (cons c) (utf8_decode r1) else None
        | _ => None
        end
      else if b0 <? 0xF0 then
        match r0 with
        | b1 :: b2 :: r2 =>
            let c := (b0 - 0xE0) * 4096 + (b1 - 0x80) * 64 + (b2 - 0x80) in
            if is_cont b1 && is_cont b2 && (0x800 <=? c) && negb (is_surrogate c)
            then option_map (cons c) (utf8_decode r2) else None
        | _ => None
        end
      else if b0 <? 0xF8 then
        match r0 with
        | b1 :: b2 :: b3 :: r3 =>
            let c := (b0 - 0xF0) * 262144 + (b1 - 0x80) * 4096
                     + (b2 - 0x80) * 64 + (b3 - 0x80) in
            if is_cont b1 && is_cont b2 && is_cont b3
               && (0x10000 <=? c) && (c <? 0x110000)
            then option_map (cons c) (utf8_decode r3) else None
        | _ => None
        end
      else None
  end.

(** [b.decode('ascii')]: every octet must be below 128. *)
Fixpoint ascii_decode (b : bytes) : outcome str :=
  match b with
  | [] => Return []
  | x :: b' =>
      if x <? 0x80 then (s <- ascii_decode b' ;; Return (x :: s))%outcome
      else Raise UnicodeDecodeError
  end.

(** The base64 alphabet of RFC 4648, as octets. *)
Definition b64_alphabet : bytes :=
  lit "ABCDEFGHIJKLMNOPQRSTUVWXYZabcdefghijklmnopqrstuvwxyz0123456789+/".

Definition b64_pad : N := 61.

Definition b64_char (sextet : N) : N := nth (N.to_nat sextet) b64_alphabet b64_pad.

(** [base64.b64encode]: three octets give four characters, a tail of one
    or two octets is padded with '='. *)
Fixpoint b64encode (b : bytes) : bytes :=
  match b with
  | [] => []
  | [x] => [b64_char (x / 4); b64_char ((x mod 4) * 16); b64_pad; b64_pad]
  | [x; y] =>
      [b64_char (x / 4); b64_char ((x mod 4) * 16 + y / 16);
       b64_char ((y mod 16) * 4); b64_pad]
  | x :: y :: z :: b' =>
      b64_char (x / 4) :: b64_char ((x mod 4) * 16 + y / 16)
      :: b64_char ((y mod 16) * 4 + z / 64) :: b64_char (z mod 64)
      :: b64encode b'
  end.

(** The value of a base64 character. *)
Definition b64_value (c : N) : option N :=
  if (65 <=? c) && (c <=? 90) then Some (c - 65)
  else if (97 <=? c) && (c <=? 122) then Some (c - 97 + 26)
  else if (48 <=? c) && (c <=? 57) then Some (c - 48 + 52)
  else if c =? 43 then Some 62
  else if c =? 47 then Some 63
  else None.

(** [base64.b64decode] on canonical input: groups of four characters,
    padding only in the last group. *)
Fixpoint b64decode (s : bytes) : option bytes :=
  match s with
  | [] => Some []
  | c0 :: c1 :: c2 :: c3 :: s' =>
      match b64_value c0, b64_value c1 with
      | Some v0, Some v1 =>
          if c2 =? b64_pad then
            if (c3 =? b64_pad) then
              match s' with
              | [] => Some [v0 * 4 + v1 / 16]
              | _ => None
              end
            else None
          else
            match b64_value c2 with
            | Some v2 =>
                if c3 =? b64_pad then
                  match s' with
                  | [] => Some [v0 * 4 + v1 / 16; (v1 mod 16) * 16 + v2 / 4]
                  | _ => None
                  end
                else
                  match b64_value c3 with
                  | Some v3 =>
                      option_map
                        (fun r => (v0 * 4 + v1 / 16) :: ((v1 mod 16) * 16 + v2 / 4)
                                  :: ((v2 mod 4) * 64 + v3) :: r)
                        (b64decode s')
                  | None => None
                  end
            | None => None
            end
      | _, _ => None
      end
  | _ => None
  end.

(** Values that fit an octet. *)
Definition octets (b : bytes) : Prop := Forall (fun x => x < 256) b.

(** The 64 sextets, and the check that a sextet survives encoding and
    decoding, is not the padding and is ASCII. *)
Definition sextets : list N := map N.of_nat (seq 0 64).

Definition sextet_ok (i : N) : bool :=
  match b64_value (b64_char i) with
  | Some j => (j =? i) && negb (b64_char i =? b64_pad) && (b64_char i <? 128)
  | None => false
  end.

End Codec.

(** ** The Python data model on decoded JSON *)

Module Obj.

(** A [dict] with [str] keys, in insertion order. *)
Fixpoint dict_get {V} (k : str) (d : list (str * V)) : option V :=
  match d with
  | [] => None
  | (k', v) :: d' => if str_eqb k k' then Some v else dict_get k d'
  end.

(** [d[k] = v]: an existing key keeps its place, a new key goes last. *)
Fixpoint dict_set {V} (k : str) (v : V) (d : list (str * V)) : list (str * V) :=
  match d with
  | [] => [(k, v)]
  | (k', v') :: d' =>
      if str_eqb k k' then (k', v) :: d' else (k', v') :: dict_set k v d'
  end.

Definition dict_keys {V} (d : list (str * V)) : list str := map fst d.

(** [k in keys] *)
Definition key_in (k : str) (keys : list str) : bool := existsb (str_eqb k) keys.

(** [l[i]] on a sequence, negative indices counting from the end. *)
Definition seq_index {A} (l : list A) (i : Z) : option A :=
  if (0 <=? i)%Z then nth_error l (Z.to_nat i)
  else if (- Z.of_nat (List.length l) <=? i)%Z
       then nth_error l (Z.to_nat (Z.of_nat (List.length l) + i))
       else None.

(** [o[k]] with a [str] subscript. *)
Definition getitem (o : json) (k : str) : outcome json :=
  match o with
  | JDict d =>
      match dict_get k d with
      | Some v => Return v
      | None => Raise (KeyError (JStr k))
      end
  | _ => Raise TypeError
  end.

(** [o[i]] with an [int] subscript.  The keys of a decoded JSON object
    are strings, so an [int] is never among them. *)
Definition getitem_int (o : json) (i : Z) : outcome json :=
  match o with
  | JList l =>
      match seq_index l i with
      | Some v => Return v
      | None => Raise IndexError
      end
  | JStr s =>
      match seq_index s i with
      | Some c => Return (JStr [c])
      | None => Raise IndexError
      end
  | JDict _ => Raise (KeyError (JNum i))
  | _ => Raise TypeError
  end.

(** [o[k] = v] with a [str] subscript; the result is [o] after the
    assignment. *)
Definition setitem (o : json) (k : str) (v : json) : outcome json :=
  match o with
  | JDict d => Return (JDict (dict_set k v d))
  | _ => Raise TypeError
  end.

(** The objects of a decoded document are mutable and reached through
    their container: after [c = o[k]] is changed in place to [c'], the
    container [o] holds [c'].  These two functions write the changed
    component back into its container. *)
Definition store (o : json) (k : str) (c' : json) : json :=
  match o with
  | JDict d => JDict (dict_set k c' d)
  | _ => o
  end.

Fixpoint list_store {A} (l : list A) (n : nat) (a : A) : list A :=
  match l, n with
  | [], _ => []
  | _ :: l', O => a :: l'
  | x :: l', S n' => x :: list_store l' n' a
  end.

Definition store_int (o : json) (i : Z) (c' : json) : json :=
  match o with
  | JList l =>
      if (0 <=? i)%Z then JList (list_store l (Z.to_nat i) c')
      else JList (list_store l (Z.to_nat (Z.of_nat (List.length l) + i)) c')
  | _ => o
  end.

(** [for x in o]: the elements of a list, the characters of a string,
    the keys of a dict. *)
Definition iter (o : json) : outcome (list json) :=
  match o with
  | JList l => Return l
  | JStr s => Return (map (fun c => JStr [c]) s)
  | JDict d => Return (map (fun kv => JStr (fst kv)) d)
  | _ => Raise TypeError
  end.

(** The truth value of [o] in a condition. *)
Definition truthy (o : json) : bool :=
  match o with
  | JNull => false
  | JBool b => b
  | JNum n => negb (n =? 0)%Z
  | JStr [] => false
  | JStr _ => true
  | JList [] => false
  | JList _ => true
  | JDict [] => false
  | JDict _ => true
  end.

(** [o.keys()]: only a dict has the method. *)
Definition keys (o : json) : outcome (list str) :=
  match o with
  | JDict d => Return (dict_keys d)
  | _ => Raise (AttributeError (lit "keys"))
  end.

(** [o.text]: none of the types of a decoded document has this
    attribute (it is an attribute of [requests.Response]). *)
Definition text_attr (o : json) : outcome str :=
  match o with
  | _ => Raise (AttributeError (lit "text"))
  end.

(** [s == v] for a string [s]. *)
Definition str_eq_json (s : str) (v : json) : bool :=
  match v with
  | JStr s' => str_eqb s s'
  | _ => false
  end.

(** [s in l] for a string [s] and a list [l]. *)
Definition str_in_list (s : str) (l : list json) : bool :=
  existsb (str_eq_json s) l.

(** A dict built by the program, with any hashable key.  [True == 1]
    and [False == 0], so these are the same key. *)
Definition pydict := list (json * json).

Definition hashable (k : json) : bool :=
  match k with
  | JList _ | JDict _ => false
  | _ => true
  end.

Definition num_value (k : json) : option Z :=
  match k with
  | JBool true => Some 1%Z
  | JBool false => Some 0%Z
  | JNum n => Some n
  | _ => None
  end.

Definition key_eqb (a b : json) : bool :=
  match a, b with
  | JNull, JNull => true
  | JStr s, JStr t => str_eqb s t
  | _, _ =>
      match num_value a, num_value b with
      | Some x, Some y => (x =? y)%Z
      | _, _ => false
      end
  end.

Fixpoint pydict_get (k : json) (d : pydict) : option json :=
  match d with
  | [] => None
  | (k', v) :: d' => if key_eqb k k' then Some v else pydict_get k d'
  end.

Fixpoint pydict_insert (k v : json) (d : pydict) : pydict :=
  match d with
  | [] => [(k, v)]
  | (k', v') :: d' =>
      if key_eqb k k' then (k', v) :: d' else (k', v') :: pydict_insert k v d'
  end.

(** [d[k] = v] *)
Definition pydict_setitem (d : pydict) (k v : json) : outcome pydict :=
  if hashable k then Return (pydict_insert k v d) else Raise TypeError.

(** The keys that [key_eqb] identifies, by what they have in common:
    [None], a number, or a string. *)
Inductive key_class :=
| KNone
| KNum (z : Z)
| KStr (s : str).

Definition key_norm (k : json) : option key_class :=
  match k with
  | JNull => Some KNone
  | JBool true => Some (KNum 1)
  | JBool false => Some (KNum 0)
  | JNum n => Some (KNum n)
  | JStr s => Some (KStr s)
  | _ => None
  end.

(** The dict after the assignments [d[k] = v] for the entries [(k, v)]
    of a list, in order. *)
Definition pydict_of (entries : list (json * json)) (d : pydict) : pydict :=
  fold_left (fun acc e => pydict_insert (fst e) (snd e) acc) entries d.

End Obj.

Import Obj.

(** ** HTTP *)

Record Response := { status_code : Z; text : str }.

Inductive payload :=
| NoBody
| JsonBody (j : json)
| Multipart (field : str) (content : bytes).

Inductive request :=
| Get (url : str) (params : list (str * json))
| Post (url : str) (headers : list (str * str)) (body : payload).

(** What a run does to the outside, in order. *)
Inductive event :=
| EvRequest (r : request)
| EvOpen (path : str)
| EvSleep (seconds : Z)
| EvPrint (s : str)
| EvLog (fmt : str) (args : list json).

Definition is_get (e : event) : bool :=
  match e with EvRequest (Get _ _) => true | _ => false end.

Definition is_post (e : event) : bool :=
  match e with EvRequest (Post _ _ _) => true | _ => false end.

Definition is_log (e : event) : bool :=
  match e with EvLog _ _ => true | _ => false end.

Definition url_of (e : event) : option str :=
  match e with
  | EvRequest (Get u _) => Some u
  | EvRequest (Post u _ _) => Some u
  | _ => None
  end.

(** The configuration [api_params]. *)
Record ApiParams := {
  url : str;
  endpoint_path : str;
  agency : str;
  version : str;
  format : str;
  codelist_endpoint_ref_area : str;
  items_add_item_endpoint : str;
  validation_load_endpoint : str;
  validation_load_status_endpoint : str
}.

(** The global [credentials['fmr']]. *)
Record Credentials := { user : str; password : str }.

Definition headers := list (str * str).

(** [os.path.join] of [posixpath]: an absolute component discards what
    precedes it, otherwise components are joined by one separator. *)
Definition ends_with_sep (a : str) : bool :=
  match rev a with
  | c :: _ => N.eqb c 47
  | [] => false
  end.

Definition path_join2 (a b : str) : str :=
  if starts_with (lit "/") b then b
  else match a with
       | [] => b
       | _ => if ends_with_sep a then a ++ b else a ++ lit "/" ++ b
       end.

Definition path_join (a : str) (ps : list str) : str := fold_left path_join2 ps a.

(** What [open] makes of a path before the file system is asked: the
    path is encoded with the file system encoding (utf-8 with
    [surrogateescape], which lets the code points U+DC80..U+DCFF
    through) and must hold no NUL. *)
Definition fs_char (c : N) : bool :=
  is_code_point c
  && (negb (is_surrogate c) || ((0xDC80 <=? c) && (c <=? 0xDCFF))%N).

Definition fs_encodable (path : str) : bool := forallb fs_char path.

Definition has_nul (path : str) : bool := existsb (N.eqb 0) path.

(** The exception of an [open] that fails: [UnicodeEncodeError] for a
    path that cannot be encoded, [ValueError] for a path with a NUL,
    [OSError] when the file system refuses. *)
Definition open_failure (path : str) : exn :=
  if negb (fs_encodable path) then UnicodeEncodeError
  else if has_nul path then ValueError
  else OSError.

(** ** Authentication (lines 38-60) *)

Definition fmr_auth (api_params : ApiParams) (user password : str) : outcome headers :=
  (bytes_auth <- Codec.utf8_encode (user ++ lit ":" ++ password) ;;
   b64 <- Codec.ascii_decode (Codec.b64encode bytes_auth) ;;
   let token := lit "Basic " ++ b64 in
   Return [(lit "Authorization", token);
           (lit "Content-Type", lit "application/json")])%outcome.

(** ** The world: registry, file system, trace *)

Section Fmrapi.

(** The decoder behind [Response.json()]: [None] is a body that is not
    valid JSON. *)
Variable json_loads : str -> option json.

(** The registry: any state, any deterministic handler.  [None] is a
    request that the transport could not complete. *)
Variable ServerState : Type.
Variable handle : ServerState -> request -> option Response * ServerState.

(** [open(path, 'rb')] and the content read from it; [None] is a path
    that cannot be opened, whatever the reason. *)
Variable read_file : str -> option bytes.

(** The module-level [credentials['fmr']]. *)
Variable credentials : Credentials.

(** [os.path.abspath(os.getcwd())] *)
Variable abspath_cwd : str.

Record world := { server : ServerState; trace : list event }.

Definition M (A : Type) : Type := world -> outcome A * world.

Definition ret {A} (a : A) : M A := fun w => (Return a, w).

Definition bind {A B} (c : M A) (k : A -> M B) : M B :=
  fun w =>
    match c w with
    | (Return a, w') => k a w'
    | (Raise e, w') => (Raise e, w')
    | (Exit, w') => (Exit, w')
    end.

Definition lift {A} (o : outcome A) : M A := fun w => (o, w).

Definition emit (e : event) : M unit :=
  fun w => (Return tt, {| server := server w; trace := trace w ++ [e] |}).

(** [exit()] *)
Definition py_exit {A} : M A := fun w => (Exit, w).

(** [try: body except E: handler] where [catches] recognises [E]. *)
Definition try_except {A} (body : M A) (catches : exn -> bool) (handler : M A) : M A :=
  fun w =>
    match body w with
    | (Raise e, w') => if catches e then handler w' else (Raise e, w')
    | r => r
    end.

Definition is_JSONDecodeError (e : exn) : bool :=
  match e with JSONDecodeError => true | _ => false end.

Declare Scope py_scope.
Delimit Scope py_scope with py.
Notation "x <- c ;; k" := (bind c (fun x => k))
  (at level 61, c at next level, right associativity) : py_scope.

(** A [for] loop whose body only acts on the world. *)
Fixpoint foreach {A} (f : A -> M unit) (l : list A) : M unit :=
  match l with
  | [] => ret tt
  | a :: l' => (_ <- f a ;; foreach f l')%py
  end.

(** [requests.get] and [requests.post] *)
Definition send (r : request) : M Response :=
  fun w =>
    let (res, s') := handle (server w) r in
    let w' := {| server := s'; trace := trace w ++ [EvRequest r] |} in
    match res with
    | Some resp => (Return resp, w')
    | None => (Raise RequestException, w')
    end.

(** [response.json()] *)
Definition response_json (r : Response) : M json :=
  lift (match json_loads (text r) with
        | Some j => Return j
        | None => Raise JSONDecodeError
        end).

(** [open(path, 'rb')] *)
Definition open_rb (path : str) : M bytes :=
  (_ <- emit (EvOpen path) ;;
   lift (match read_file path with
         | Some b => Return b
         | None => Raise (open_failure path)
         end))%py.

(** [logger.info(fmt, *args)] *)
Definition logger_info (fmt : string) (args : list json) : M unit :=
  emit (EvLog (lit fmt) args).

(** ** Codelist reader (lines 1-36) *)

Definition ref_area_step (ref_area_dict : pydict) (economy : json) : outcome pydict :=
  (v <- getitem economy (lit "id") ;;
   names <- getitem economy (lit "names") ;;
   name0 <- getitem_int names 0 ;;
   k <- getitem name0 (lit "value") ;;
   pydict_setitem ref_area_dict k v)%outcome.

Definition codelist_items (codelist_dict : json) : outcome (list json) :=
  (cl <- getitem codelist_dict (lit "Codelist") ;;
   c0 <- getitem_int cl 0 ;;
   items <- getitem c0 (lit "items") ;;
   iter items)%outcome.

Definition ref_area_url (api_params : ApiParams) : str :=
  url api_params ++ endpoint_path api_params ++ agency api_params
  ++ codelist_endpoint_ref_area api_params ++ lit "/"
  ++ version api_params ++ format api_params.

Definition get_ref_area_codelist (api_params : ApiParams) : M pydict :=
  (_ <- logger_info ">>>>> Getting values for the codelist %s..."
          [JStr (codelist_endpoint_ref_area api_params)] ;;
   codelist_dict <-
     try_except
       (r <- send (Get (ref_area_url api_params) []) ;; response_json r)
       is_JSONDecodeError
       (_ <- emit (EvPrint (lit "FMR instance not accessible!")) ;; py_exit) ;;
   items <- lift (codelist_items codelist_dict) ;;
   lift (ofold ref_area_step items []))%py.

(** ** Codelist writer, one item (lines 62-149) *)

Definition temp_payload (item_id item_description : str) : json :=
  JDict [(lit "id", JStr item_id);
         (lit "names",
          JList [JDict [(lit "locale", JStr (lit "en"));
                        (lit "value", JStr item_description)]])].

Definition codelist_url (api_params : ApiParams) (agency codelist_id : str) : str :=
  url api_params ++ endpoint_path api_params ++ agency ++ lit "/"
  ++ codelist_id ++ format api_params.

(** [req['Codelist'][0]['items'] = [payload]]: the assignment changes the
    inner dict in place, and [req] is the document that holds it. *)
Definition replace_items (req payload : json) : outcome json :=
  (cl <- getitem req (lit "Codelist") ;;
   c0 <- getitem_int cl 0 ;;
   c0' <- setitem c0 (lit "items") (JList [payload]) ;;
   Return (store req (lit "Codelist") (store_int cl 0 c0')))%outcome.

(** [[i['id'] for i in req['Codelist'][0]['items']]] *)
Definition existing_ids (req : json) : outcome (list json) :=
  (items <- codelist_items req ;;
   omap (fun i => getitem i (lit "id")) items)%outcome.

Definition add_item_url (api_params : ApiParams) : str :=
  url api_params ++ items_add_item_endpoint api_params.

(** The [try] block, lines 97-131. *)
Definition fetch_and_add (api_params : ApiParams)
    (codelist_id item_id item_description agency action : str)
    (headers : headers) : M unit :=
  (r <- send (Get (codelist_url api_params agency codelist_id) []) ;;
   req <- response_json r ;;
   existing_list <- lift (existing_ids req) ;;
   if negb (str_in_list item_id existing_list) then
     req' <- lift (replace_items req (temp_payload item_id item_description)) ;;
     let headers' := dict_set (lit "ACTION") action headers in
     response <- send (Post (add_item_url api_params) headers' (JsonBody req')) ;;
     if str_contains (lit "Success") (text response) then
       logger_info ">>>>>>>>> Added codes(s) successfully!" []
     else
       j <- response_json response ;;
       logger_info ">>>>>>>>> %s" [j]
   else
     logger_info ">>>>>>>>> ID already exists in codelist..." [])%py.

(** The [except json.JSONDecodeError] block, lines 133-147: [req] is
    bound to the decoded body of a second GET, and [req.text] is read
    from it. *)
Definition diagnose (api_params : ApiParams) (codelist_id agency : str) : M unit :=
  (r <- send (Get (codelist_url api_params agency codelist_id) []) ;;
   req <- response_json r ;;
   req_text <- lift (text_attr req) ;;
   if str_contains (lit "Blocked") req_text then
     logger_info ">>>>>>>>> WebPage Blocked! Restart FMR instance." []
   else
     logger_info ">>>>>>>>> Error connecting API: %s" [JStr req_text])%py.

Definition add_single_item_to_codelist (api_params : ApiParams)
    (codelist_id item_id item_description agency action : str) : M bool :=
  (headers <- lift (fmr_auth api_params (user credentials) (password credentials)) ;;
   _ <- try_except
          (fetch_and_add api_params codelist_id item_id item_description
             agency action headers)
          is_JSONDecodeError
          (diagnose api_params codelist_id agency) ;;
   ret true)%py.

(** ** Codelist writer, batch (lines 151-183) *)

(** An element of [item_list]: a dict with the keys ['id'] and
    ['description']. *)
Definition item := list (str * str).

Definition item_get (it : item) (k : str) : outcome str :=
  match dict_get k it with
  | Some v => Return v
  | None => Raise (KeyError (JStr k))
  end.

Definition add_items_to_codelist (api_params : ApiParams)
    (codelist_id : str) (item_list : list item) (agency action : str) : M bool :=
  (_ <- logger_info ">>>>> Adding items to codelist %s..." [JStr codelist_id] ;;
   _ <- foreach
     (fun it =>
        id_logged <- lift (item_get it (lit "id")) ;;
        _ <- logger_info ">>>>>>> Item: %s" [JStr id_logged] ;;
        item_id <- lift (item_get it (lit "id")) ;;
        item_description <- lift (item_get it (lit "description")) ;;
        _ <- add_single_item_to_codelist api_params codelist_id
               item_id item_description agency action ;;
        ret tt)
     item_list ;;
   ret true)%py.

(** ** Dataset validator, one file (lines 185-276) *)

Definition load_url (api_params : ApiParams) : str :=
  url api_params ++ validation_load_endpoint api_params.

Definition load_status_url (api_params : ApiParams) : str :=
  url api_params ++ validation_load_status_endpoint api_params.

Definition load_request (api_params : ApiParams) (content : bytes) (delimiter : str)
  : request :=
  Post (load_url api_params)
       [(lit "Data-Format", lit "csv;delimiter=" ++ delimiter)]
       (Multipart (lit "uploadFile") content).

Definition load_status_request (api_params : ApiParams) (uid : json) : request :=
  Get (load_status_url api_params) [(lit "uid", uid)].

(** The loop of lines 241-244. *)
Definition dataset_errors (dx : json) : outcome json :=
  (report <- getitem dx (lit "ValidationReport") ;;
   r0 <- getitem_int report 0 ;;
   getitem r0 (lit "Errors"))%outcome.

Definition validation_report (v : json) : json :=
  JDict [(lit "ValidationReport", v)].

(** The locals [validated_bool] and [error_dict] are assigned together,
    on some paths only: [None] is the state in which they are unbound. *)
Definition validate_single_dataset_fmr (api_params : ApiParams)
    (filepath delimiter : str) : M (bool * json) :=
  (headers <- lift (fmr_auth api_params (user credentials) (password credentials)) ;;
   content <- open_rb filepath ;;
   val_req <- send (load_request api_params content delimiter) ;;
   _ <- emit (EvSleep 5) ;;
   locals <-
     (if (status_code val_req =? 200)%Z then
        try_except
          (val_req_json <- response_json val_req ;;
           uid <- lift (getitem val_req_json (lit "uid")) ;;
           r <- send (load_status_request api_params uid) ;;
           load_status <- response_json r ;;
           ks <- lift (keys load_status) ;;
           if key_in (lit "Errors") ks then
             errs <- lift (getitem load_status (lit "Errors")) ;;
             if truthy errs then
               _ <- logger_info ">>>>>>>>> Validation finished with Errors! JSON report will be exported to working repository" [] ;;
               datasets <- lift (getitem load_status (lit "Datasets")) ;;
               dxs <- lift (iter datasets) ;;
               errors <- lift (omap dataset_errors dxs) ;;
               ret (Some (false, validation_report (JList errors)))
             else
               _ <- logger_info ">>>>>>>>> Dataset validation complete without Errors!" [] ;;
               ret (Some (true, JDict []))
           else
             ks' <- lift (keys load_status) ;;
             if key_in (lit "Error") ks' then
               e <- lift (getitem load_status (lit "Error")) ;;
               _ <- logger_info ">>>>>>>>> Session timed out : %s" [e] ;;
               ret (Some (false, validation_report (JStr (lit "Session timed out"))))
             else ret None)
          is_JSONDecodeError
          (_ <- logger_info ">>>>>>>>> Cannot connect to FMR instance!!" [] ;;
           ret (Some (false,
                      validation_report (JStr (lit "Cannot connect to FMR instance")))))
      else
        _ <- logger_info ">>>>>>>>> Error with load endpoint: %s" [JStr (text val_req)] ;;
        ret (Some (false, validation_report (JStr (lit "Error with load endpoint"))))) ;;
   match locals with
   | Some result => ret result
   | None => lift (Raise (UnboundLocalError (lit "validated_bool")))
   end)%py.

(** ** Dataset validator, batch (lines 278-324) *)

Definition export_path (folder_name : str) : str :=
  path_join abspath_cwd [lit "data"; lit "03_primary"; folder_name].

Fixpoint validate_loop (api_params : ApiParams) (path delimiter : str)
    (filenames : list str) (validated : list (str * bool)) (error : list (str * json))
  : M (list (str * bool) * list (str * json)) :=
  match filenames with
  | [] => ret (validated, error)
  | filename :: rest =>
      (_ <- logger_info ">>>>>>> File: %s" [JStr filename] ;;
       let temp_path := path_join path [filename] in
       res <- validate_single_dataset_fmr api_params temp_path delimiter ;;
       validate_loop api_params path delimiter rest
         (dict_set filename (fst res) validated)
         (dict_set filename (snd res) error))%py
  end.

(** [datasets] is a dict keyed by file name; only its keys are used.
    The result [None] is Python's [None]. *)
Definition validate_datasets_fmr (api_params : ApiParams)
    (datasets : list (str * json)) (folder_name : str) (boolean : bool)
    (delimiter : str) : M (option (list (str * bool) * list (str * json))) :=
  if boolean then
    (_ <- logger_info ">>>>> Validating files against DSD..." [] ;;
     res <- validate_loop api_params (export_path folder_name) delimiter
              (dict_keys datasets) [] [] ;;
     ret (Some res))%py
  else ret None.

End Fmrapi.

(** ** Leaving the process

    An evaluation, and a computation at every world, that does not end
    in [exit()]. *)

Definition no_exit {A} (o : outcome A) : Prop := o <> Exit.

Definition never_exits {S A} (c : M S A) : Prop := forall w, fst (c w) <> Exit.

(** ** Results and request counts

    [ensures c P]: whenever [c] returns, its value satisfies [P].
    [at_most p n c]: a run of [c] adds at most [n] events that satisfy
    [p] to the trace. *)

Definition ensures {S A} (c : M S A) (P : A -> Prop) : Prop :=
  forall w a w', c w = (Return a, w') -> P a.

Definition count (p : event -> bool) (tr : list event) : nat :=
  List.length (filter p tr).

Definition at_most {S A} (p : event -> bool) (n : nat) (c : M S A) : Prop :=
  forall w, count p (trace (snd (c w))) <= count p (trace w) + n.

(** The two shapes of a validation result: [(True, {})] and
    [(False, {"ValidationReport": v})]. *)
Definition result_shape (r : bool * json) : Prop :=
  match r with
  | (true, d) => d = JDict []
  | (false, d) => exists v, d = JDict [(lit "ValidationReport", v)]
  end.

(** The keys of a dict of the program: hashable, no two of them
    equal. *)
Fixpoint distinct_keys (d : pydict) : bool :=
  match d with
  | [] => true
  | (k, _) :: d' =>
      hashable k && negb (existsb (fun e => key_eqb k (fst e)) d') && distinct_keys d'
  end.

(** Two result dicts that go together: the same file names in the
    same order, and under each name a well-formed result. *)
Definition parallel_results (validated : list (str * bool)) (error : list (str * json))
  : Prop :=
  Forall2 (fun v e => fst v = fst e /\ result_shape (snd v, snd e)) validated error.

(** ** What the specification names

    Definitions that follow the words of the specification, to be
    compared with what the functions above compute. *)

Module Spec.

Fixpoint all_some {A} (l : list (option A)) : option (list A) :=
  match l with
  | [] => Some []
  | Some a :: l' => option_map (cons a) (all_some l')
  | None :: _ => None
  end.

(** A dataset's [ValidationReport[0].Errors]. *)
Definition dataset_report (dx : json) : option json :=
  match dx with
  | JDict d =>
      match dict_get (lit "ValidationReport") d with
      | Some (JList (JDict r0 :: _)) => dict_get (lit "Errors") r0
      | _ => None
      end
  | _ => None
  end.

(** The ordered list collecting, for each dataset of the status's
    [Datasets] sequence, that dataset's [ValidationReport[0].Errors]. *)
Definition status_reports (status : list (str * json)) : option (list json) :=
  match dict_get (lit "Datasets") status with
  | Some (JList ds) => all_some (map dataset_report ds)
  | _ => None
  end.

(** The codelist document with [Codelist[0].items] replaced. *)
Definition with_items (doc new_items : json) : option json :=
  match doc with
  | JDict d =>
      match dict_get (lit "Codelist") d with
      | Some (JList (JDict c0 :: rest)) =>
          Some (JDict (dict_set (lit "Codelist")
                         (JList (JDict (dict_set (lit "items") new_items c0) :: rest))
                         d))
      | _ => None
      end
  | _ => None
  end.

(** The item ids of a codelist document. *)
Definition item_id_of (it : json) : option json :=
  match it with
  | JDict d => dict_get (lit "id") d
  | _ => None
  end.

Definition codelist_item_list (doc : json) : option (list json) :=
  match doc with
  | JDict d =>
      match dict_get (lit "Codelist") d with
      | Some (JList (JDict c0 :: _)) =>
          match dict_get (lit "items") c0 with
          | Some (JList items) => Some items
          | _ => None
          end
      | _ => None
      end
  | _ => None
  end.

Definition item_id_set (doc : json) : option (list json) :=
  match codelist_item_list doc with
  | Some items => all_some (map item_id_of items)
  | None => None
  end.

(** An item's first localized name value, paired with its id. *)
Definition item_entry (it : json) : option (json * json) :=
  match it with
  | JDict d =>
      match dict_get (lit "names") d, dict_get (lit "id") d with
      | Some (JList (JDict n0 :: _)), Some i =>
          match dict_get (lit "value") n0 with
          | Some v => if hashable v then Some (v, i) else None
          | None => None
          end
      | _, _ => None
      end
  | _ => None
  end.

Definition codelist_entries (doc : json) : option (list (json * json)) :=
  match codelist_item_list doc with
  | Some items => all_some (map item_entry items)
  | None => None
  end.

(** The mapping of a sequence of (name, id) entries, as its lookup: a
    name shared by several items is bound to the id of the last one. *)
Definition mapping_lookup (k : json) (entries : list (json * json)) : option json :=
  option_map snd (find (fun e => key_eqb k (fst e)) (rev entries)).

(** The trace of a batch whose items are all in the codelist already:
    per item, its log line, the fetch, and the line that the id
    exists. *)
Definition present_items_trace (fetch : request) (fields : list (str * str))
  : list event :=
  flat_map (fun f => [EvLog (lit ">>>>>>> Item: %s") [JStr (fst f)];
                      EvRequest fetch;
                      EvLog (lit ">>>>>>>>> ID already exists in codelist...") []])
           fields.

(** An element of an item list with its two fields. *)
Definition item_fields (it : list (str * str)) (f : str * str) : Prop :=
  dict_get (lit "id") it = Some (fst f)
  /\ dict_get (lit "description") it = Some (snd f).

(** What the receiver of the header does: strip ["Basic "], decode
    base64, decode utf-8. *)
Definition decode_basic (value : str) : option str :=
  match strip_prefix (lit "Basic ") value with
  | Some t =>
      match Codec.b64decode t with
      | Some b => Codec.utf8_decode b
      | None => None
      end
  | None => None
  end.

End Spec.

(** ** A scripted registry for concrete runs *)

Module Mock.

(** The registry answers the requests it receives with the responses of
    a script, in order, whatever the request; a script that has run out
    is a transport failure. *)
Definition script := list (option Response).

Definition scripted (s : script) (r : request) : option Response * script :=
  match s with
  | [] => (None, [])
  | x :: s' => (x, s')
  end.

(** A decoder given by the table of the bodies it knows. *)
Definition decoder (table : list (str * json)) (body : str) : option json :=
  dict_get body table.

(** A body written with apostrophes for the double quotes of JSON. *)
Definition jtext (s : string) : str :=
  map (fun c => if N.eqb c 39 then 34%N else c) (lit s).

Definition api : ApiParams :=
  {| url := lit "https://fmr.example.org";
     endpoint_path := lit "/sdmx/v2/structure/codelist/";
     agency := lit "WB";
     version := lit "1.0";
     format := lit "?format=fusion-json";
     codelist_endpoint_ref_area := lit "/CL_REF_AREA";
     items_add_item_endpoint := lit "/ws/secure/sdmxapi/rest";
     validation_load_endpoint := lit "/ws/public/data/load";
     validation_load_status_endpoint := lit "/ws/public/data/loadStatus" |}.

Definition creds : Credentials := {| user := lit "root"; password := lit "password" |}.

Definition csv : bytes := lit "STRUCTURE,STRUCTURE_ID,ACTION".

Definition files (path : str) : option bytes := Some csv.

Definition cwd : str := lit "/home/project".

Definition start (s : script) : world script := {| server := s; trace := [] |}.

(** Documents and bodies of the examples. *)
Definition load_body : str := jtext "{'uid': '123'}".
Definition load_doc : json := JDict [(lit "uid", JStr (lit "123"))].

Definition status_ok_body : str := jtext "{'Errors': false}".
Definition status_ok_doc : json := JDict [(lit "Errors", JBool false)].

Definition status_bad_body : str :=
  jtext "{'Errors': true, 'Datasets': [{'ValidationReport': [{'Errors': ['bad row']}]}]}".
Definition status_bad_doc : json :=
  JDict [(lit "Errors", JBool true);
         (lit "Datasets",
          JList [JDict [(lit "ValidationReport",
                         JList [JDict [(lit "Errors", JList [JStr (lit "bad row")])]])]])].

Definition status_odd_body : str := jtext "{'Status': 'Processing'}".
Definition status_odd_doc : json := JDict [(lit "Status", JStr (lit "Processing"))].

Definition codelist_body : str :=
  jtext "{'Codelist': [{'items': [{'id': 'INX', 'names': [{'value': 'Not classified'}]}]}]}".
Definition codelist_doc : json :=
  JDict [(lit "Codelist",
          JList [JDict [(lit "items",
                         JList [JDict [(lit "id", JStr (lit "INX"));
                                       (lit "names",
                                        JList [JDict [(lit "value",
                                                       JStr (lit "Not classified"))]])]])]])].

Definition blocked_body : str := lit "<html>Blocked</html>".

Definition table : list (str * json) :=
  [(load_body, load_doc); (status_ok_body, status_ok_doc);
   (status_bad_body, status_bad_doc); (status_odd_body, status_odd_doc);
   (codelist_body, codelist_doc)].

Definition ok (body : str) : option Response :=
  Some {| status_code := 200; text := body |}.

(** A registry that answers every request with the same response. *)
Definition always (r : Response) (s : unit) (q : request) : option Response * unit :=
  (Some r, tt).

Definition server_error : option Response :=
  Some {| status_code := 500; text := lit "Internal Server Error" |}.

(** Two elements of an [item_list]. *)
Definition item_a : item :=
  [(lit "id", lit "AAA"); (lit "description", lit "First")].
Definition item_b : item :=
  [(lit "id", lit "BBB"); (lit "description", lit "Second")].

(** The codelist document with the one item ["AAA"] in place of its
    items. *)
Definition codelist_doc_with_a : json :=
  JDict [(lit "Codelist",
          JList [JDict [(lit "items",
                         JList [JDict [(lit "id", JStr (lit "AAA"));
                                       (lit "names",
                                        JList [JDict [(lit "locale", JStr (lit "en"));
                                                      (lit "value",
                                                       JStr (lit "First"))]])]])]])].

(** The headers of [creds]. *)
Definition auth : headers :=
  [(lit "Authorization", lit "Basic cm9vdDpwYXNzd29yZA==");
   (lit "Content-Type", lit "application/json")].

End Mock.

(** ** More bodies and documents for concrete runs *)

Module Cases.

Import Mock.

Definition empty_body : str := jtext "{}".
Definition empty_doc : json := JDict [].

Definition timeout_body : str := jtext "{'Error': 'expired'}".
Definition timeout_doc : json := JDict [(lit "Error", JStr (lit "expired"))].

Definition errors_only_body : str := jtext "{'Errors': true}".
Definition errors_only_doc : json := JDict [(lit "Errors", JBool true)].

Definition empty_report_body : str :=
  jtext "{'Errors': true, 'Datasets': [{'ValidationReport': []}]}".
Definition empty_report_doc : json :=
  JDict [(lit "Errors", JBool true);
         (lit "Datasets", JList [JDict [(lit "ValidationReport", JList [])]])].

Definition refused_body : str := jtext "{'Error': 'refused'}".
Definition refused_doc : json := JDict [(lit "Error", JStr (lit "refused"))].

Definition table : list (str * json) :=
  Mock.table ++
  [(empty_body, empty_doc); (timeout_body, timeout_doc);
   (errors_only_body, errors_only_doc); (empty_report_body, empty_report_doc);
   (refused_body, refused_doc)].

(** A file system without the file. *)
Definition no_files (path : str) : option bytes := None.

(** Credentials whose user name is a lone surrogate. *)
Definition bad_creds : Credentials := {| user := [55296%N]; password := lit "password" |}.

End Cases.

(** * Properties *)

(** ** Strings *)

Lemma str_eqb_eq (a b : str) : str_eqb a b = true <-> a = b.
Proof.
  revert b; induction a as [|x a IH]; intros [|y b]; simpl; split; intro H;
    try discriminate; try reflexivity.
  - apply andb_prop in H as [Hx Hab]. apply N.eqb_eq in Hx.
    apply IH in Hab. now subst.
  - injection H as -> ->. rewrite N.eqb_refl. now apply IH.
Qed.

Lemma str_eqb_refl (a : str) : str_eqb a a = true.
Proof. now apply str_eqb_eq. Qed.

Lemma str_eqb_sym (a b : str) : str_eqb a b = str_eqb b a.
Proof.
  destruct (str_eqb a b) eqn:E.
  - apply str_eqb_eq in E. subst. now rewrite str_eqb_refl.
  - destruct (str_eqb b a) eqn:E'; [|reflexivity].
    apply str_eqb_eq in E'. subst. now rewrite str_eqb_refl in E.
Qed.

Lemma strip_prefix_app (p s : str) : strip_prefix p (p ++ s) = Some s.
Proof. induction p as [|x p IH]; simpl; [reflexivity|]. now rewrite N.eqb_refl. Qed.

(** ** The codecs *)

Module CodecFacts.

Import Codec.
Local Open Scope N_scope.

Ltac arith := zify; Z.to_euclidean_division_equations; lia.

Ltac decide_tests :=
  repeat match goal with
  | |- context [N.ltb ?a ?b] =>
      first [ rewrite (proj2 (N.ltb_lt a b)) by arith
            | rewrite (proj2 (N.ltb_ge a b)) by arith ]
  | |- context [N.leb ?a ?b] =>
      first [ rewrite (proj2 (N.leb_le a b)) by arith
            | rewrite (proj2 (N.leb_gt a b)) by arith ]
  end.


Ltac octets_tac :=
  unfold octets; repeat (apply Forall_cons; [arith|]); apply Forall_nil.

Lemma utf8_char_roundtrip (c : N) (rest : bytes) :
  is_scalar c = true ->
  exists b, utf8_encode_char c = Return b
            /\ octets b
            /\ utf8_decode (b ++ rest) = option_map (cons c) (utf8_decode rest).
Proof.
  unfold is_scalar, is_code_point, is_surrogate, utf8_encode_char.
  intro H. apply andb_prop in H as [Hcp Hs].
  apply N.ltb_lt in Hcp. apply negb_true_iff in Hs.
  destruct (c <? 0x80) eqn:E1.
  { apply N.ltb_lt in E1. eexists; split; [reflexivity|]. split.
    - octets_tac.
    - simpl. now rewrite (proj2 (N.ltb_lt c 0x80)) by lia. }
  apply N.ltb_ge in E1.
  destruct (c <? 0x800) eqn:E2.
  { apply N.ltb_lt in E2. eexists; split; [reflexivity|]. split.
    - octets_tac.
    - cbn [app utf8_decode]. unfold is_cont. decide_tests. cbn [andb].
      replace ((192 + c / 64 - 192) * 64 + (128 + c mod 64 - 128)) with c by arith.
      reflexivity. }
  apply N.ltb_ge in E2.
  destruct (c <? 0x10000) eqn:E3.
  { apply N.ltb_lt in E3. unfold is_surrogate. rewrite Hs.
    eexists; split; [reflexivity|]. split.
    - octets_tac.
    - cbn [app utf8_decode]. unfold is_cont. decide_tests. cbn [andb].
      replace ((224 + c / 4096 - 224) * 4096 + (128 + (c / 64) mod 64 - 128) * 64
               + (128 + c mod 64 - 128)) with c by arith.
      unfold is_surrogate. rewrite Hs. decide_tests. reflexivity. }
  apply N.ltb_ge in E3.
  rewrite (proj2 (N.ltb_lt c 0x110000)) by lia.
  eexists; split; [reflexivity|]. split.
  - octets_tac.
  - cbn [app utf8_decode]. unfold is_cont. decide_tests. cbn [andb].
    replace ((240 + c / 262144 - 240) * 262144 + (128 + (c / 4096) mod 64 - 128) * 4096
             + (128 + (c / 64) mod 64 - 128) * 64 + (128 + c mod 64 - 128))
      with c by arith.
    decide_tests. reflexivity.
Qed.

Lemma octets_app (a b : bytes) : octets a -> octets b -> octets (a ++ b).
Proof. unfold octets. intros. apply Forall_app. now split. Qed.

Lemma utf8_roundtrip (s : str) :
  encodable s = true ->
  exists b, utf8_encode s = Return b /\ octets b /\ utf8_decode b = Some s.
Proof.
  induction s as [|c s IH]; simpl; intro H.
  - exists []. repeat split. constructor.
  - apply andb_prop in H as [Hc Hs].
    destruct (IH Hs) as (bs & Ebs & Obs & Dbs).
    destruct (utf8_char_roundtrip c bs Hc) as (b & Eb & Ob & Db).
    exists (b ++ bs). rewrite Eb, Ebs. simpl. repeat split.
    + now apply octets_app.
    + rewrite Db, Dbs. reflexivity.
Qed.

(** The alphabet, checked over its 64 entries. *)
Lemma sextets_ok : forallb sextet_ok sextets = true.
Proof. vm_compute. reflexivity. Qed.

Lemma b64_char_spec (i : N) :
  i < 64 ->
  b64_value (b64_char i) = Some i
  /\ (b64_char i =? b64_pad) = false
  /\ b64_char i < 128.
Proof.
  intro Hi.
  assert (Hin : In i sextets).
  { unfold sextets. apply in_map_iff. exists (N.to_nat i). split.
    - apply N2Nat.id.
    - apply in_seq. lia. }
  pose proof (proj1 (forallb_forall sextet_ok sextets) sextets_ok i Hin) as H.
  unfold sextet_ok in H.
  destruct (b64_value (b64_char i)) as [j|]; [|discriminate].
  apply andb_prop in H as [H H3]. apply andb_prop in H as [H1 H2].
  apply N.eqb_eq in H1. apply negb_true_iff in H2. apply N.ltb_lt in H3.
  subst j. now repeat split.
Qed.

Lemma list_ind3 {A} (P : list A -> Prop) :
  P [] -> (forall x, P [x]) -> (forall x y, P [x; y]) ->
  (forall x y z l, P l -> P (x :: y :: z :: l)) ->
  forall l, P l.
Proof.
  intros H0 H1 H2 H3.
  fix IH 1. intros [|x [|y [|z l]]].
  - exact H0.
  - apply H1.
  - apply H2.
  - apply H3. apply IH.
Qed.

Ltac sextet i :=
  let H := fresh "Hs" in
  assert (H : i < 64) by arith;
  destruct (b64_char_spec H) as (? & ? & ?).

Lemma b64_roundtrip (b : bytes) : octets b -> b64decode (b64encode b) = Some b.
Proof.
  induction b as [|x|x y|x y z l IH] using list_ind3; intro Hb.
  - reflexivity.
  - apply Forall_cons_iff in Hb as [Hx _].
    cbn [b64encode b64decode].
    sextet (x / 4). sextet ((x mod 4) * 16).
    repeat match goal with H : b64_value _ = Some _ |- _ => rewrite H; clear H end.
    rewrite !N.eqb_refl. f_equal. f_equal. arith.
  - apply Forall_cons_iff in Hb as [Hx Hb]. apply Forall_cons_iff in Hb as [Hy _].
    cbn [b64encode b64decode].
    sextet (x / 4). sextet ((x mod 4) * 16 + y / 16). sextet ((y mod 16) * 4).
    repeat match goal with H : b64_value _ = Some _ |- _ => rewrite H; clear H end.
    repeat match goal with H : (_ =? b64_pad) = false |- _ => rewrite H; clear H end.
    rewrite !N.eqb_refl. f_equal. f_equal; [arith|]. f_equal. arith.
  - apply Forall_cons_iff in Hb as [Hx Hb]. apply Forall_cons_iff in Hb as [Hy Hb].
    apply Forall_cons_iff in Hb as [Hz Hl].
    cbn [b64encode b64decode].
    sextet (x / 4). sextet ((x mod 4) * 16 + y / 16).
    sextet ((y mod 16) * 4 + z / 64). sextet (z mod 64).
    repeat match goal with H : b64_value _ = Some _ |- _ => rewrite H; clear H end.
    repeat match goal with H : (_ =? b64_pad) = false |- _ => rewrite H; clear H end.
    rewrite (IH Hl). cbn [option_map]. f_equal.
    f_equal; [arith|]. f_equal; [arith|]. f_equal. arith.
Qed.

Lemma b64encode_ascii (b : bytes) :
  octets b -> ascii_decode (b64encode b) = Return (b64encode b).
Proof.
  assert (Hpad : (b64_pad <? 128) = true) by reflexivity.
  induction b as [|x|x y|x y z l IH] using list_ind3; intro Hb.
  - reflexivity.
  - apply Forall_cons_iff in Hb as [Hx _].
    cbn [b64encode ascii_decode].
    sextet (x / 4). sextet ((x mod 4) * 16).
    repeat match goal with H : b64_char _ < 128 |- _ =>
      rewrite (proj2 (N.ltb_lt _ _) H); clear H end.
    rewrite Hpad. reflexivity.
  - apply Forall_cons_iff in Hb as [Hx Hb]. apply Forall_cons_iff in Hb as [Hy _].
    cbn [b64encode ascii_decode].
    sextet (x / 4). sextet ((x mod 4) * 16 + y / 16). sextet ((y mod 16) * 4).
    repeat match goal with H : b64_char _ < 128 |- _ =>
      rewrite (proj2 (N.ltb_lt _ _) H); clear H end.
    rewrite Hpad. reflexivity.
  - apply Forall_cons_iff in Hb as [Hx Hb]. apply Forall_cons_iff in Hb as [Hy Hb].
    apply Forall_cons_iff in Hb as [Hz Hl].
    cbn [b64encode ascii_decode].
    sextet (x / 4). sextet ((x mod 4) * 16 + y / 16).
    sextet ((y mod 16) * 4 + z / 64). sextet (z mod 64).
    repeat match goal with H : b64_char _ < 128 |- _ =>
      rewrite (proj2 (N.ltb_lt _ _) H); clear H end.
    rewrite (IH Hl). reflexivity.
Qed.

End CodecFacts.

(** ** Running a computation, step by step *)

Section Steps.

Variable json_loads : str -> option json.
Variable ServerState : Type.
Variable handle : ServerState -> request -> option Response * ServerState.
Variable read_file : str -> option bytes.

Variables A B : Type.
Variable w : world ServerState.

Lemma run_ret (a : A) (k : A -> M ServerState B) : bind (ret a) k w = k a w.
Proof. reflexivity. Qed.

Lemma run_assoc (C : Type) (c : M ServerState A) (k1 : A -> M ServerState B)
    (k2 : B -> M ServerState C) :
  bind (bind c k1) k2 w = bind c (fun x => bind (k1 x) k2) w.
Proof. unfold bind. destruct (c w) as [[a| |] w']; reflexivity. Qed.

Lemma run_lift (o : outcome A) (a : A) (k : A -> M ServerState B) :
  o = Return a -> bind (lift o) k w = k a w.
Proof. intros ->. reflexivity. Qed.

Lemma run_lift_raise (o : outcome A) (e : exn) (k : A -> M ServerState B) :
  o = Raise e -> bind (lift o) k w = (Raise e, w).
Proof. intros ->. reflexivity. Qed.

Lemma run_emit (e : event) (k : unit -> M ServerState B) :
  bind (emit e) k w = k tt {| server := server w; trace := trace w ++ [e] |}.
Proof. reflexivity. Qed.

Lemma run_log (fmt : string) (args : list json) (k : unit -> M ServerState B) :
  bind (logger_info fmt args) k w =
  k tt {| server := server w; trace := trace w ++ [EvLog (lit fmt) args] |}.
Proof. reflexivity. Qed.

Lemma run_send (r : request) (resp : Response) (s' : ServerState)
    (k : Response -> M ServerState B) :
  handle (server w) r = (Some resp, s') ->
  bind (send handle r) k w =
  k resp {| server := s'; trace := trace w ++ [EvRequest r] |}.
Proof. intro H. unfold bind, send. rewrite H. reflexivity. Qed.

Lemma run_send_fail (r : request) (s' : ServerState)
    (k : Response -> M ServerState B) :
  handle (server w) r = (None, s') ->
  bind (send handle r) k w =
  (Raise RequestException, {| server := s'; trace := trace w ++ [EvRequest r] |}).
Proof. intro H. unfold bind, send. rewrite H. reflexivity. Qed.

Lemma run_json (r : Response) (j : json) (k : json -> M ServerState B) :
  json_loads (text r) = Some j ->
  bind (response_json json_loads r) k w = k j w.
Proof. intro H. unfold bind, response_json, lift. rewrite H. reflexivity. Qed.

Lemma run_json_fail (r : Response) (k : json -> M ServerState B) :
  json_loads (text r) = None ->
  bind (response_json json_loads r) k w = (Raise JSONDecodeError, w).
Proof. intro H. unfold bind, response_json, lift. rewrite H. reflexivity. Qed.

Lemma run_open (path : str) (content : bytes) (k : bytes -> M ServerState B) :
  read_file path = Some content ->
  bind (open_rb read_file path) k w =
  k content {| server := server w; trace := trace w ++ [EvOpen path] |}.
Proof. intro H. unfold open_rb, bind, emit, lift. rewrite H. reflexivity. Qed.

Lemma run_open_fail (path : str) (k : bytes -> M ServerState B) :
  read_file path = None ->
  bind (open_rb read_file path) k w =
  (Raise (open_failure path),
   {| server := server w; trace := trace w ++ [EvOpen path] |}).
Proof. intro H. unfold open_rb, bind, emit, lift. rewrite H. reflexivity. Qed.

Lemma run_try_return (body handler : M ServerState A) (catches : exn -> bool)
    (a : A) (w' : world ServerState) (k : A -> M ServerState B) :
  body w = (Return a, w') ->
  bind (try_except body catches handler) k w = k a w'.
Proof. intro H. unfold bind, try_except. rewrite H. reflexivity. Qed.

Lemma run_try_caught (body handler : M ServerState A) (catches : exn -> bool)
    (e : exn) (w' : world ServerState) (k : A -> M ServerState B) :
  body w = (Raise e, w') -> catches e = true ->
  bind (try_except body catches handler) k w = bind handler k w'.
Proof. intros H He. unfold bind, try_except. rewrite H, He. reflexivity. Qed.

Lemma run_try_uncaught (body handler : M ServerState A) (catches : exn -> bool)
    (e : exn) (w' : world ServerState) (k : A -> M ServerState B) :
  body w = (Raise e, w') -> catches e = false ->
  bind (try_except body catches handler) k w = (Raise e, w').
Proof. intros H He. unfold bind, try_except. rewrite H, He. reflexivity. Qed.

End Steps.

Ltac steps :=
  cbv beta iota;
  repeat (first [rewrite run_assoc | rewrite run_emit | rewrite run_log | rewrite run_ret];
          cbv beta iota);
  cbn [server trace].
Ltac lift_ok H := steps; erewrite run_lift by exact H; steps.
Ltac send_ok H := steps; erewrite run_send by exact H; steps.
Ltac json_ok H := steps; erewrite run_json by exact H; steps.
Ltac open_ok H := steps; erewrite run_open by exact H; steps.
Ltac tidy := cbn [server trace fst snd]; repeat rewrite <- app_assoc; cbn [app].

(** ** Dictionaries and the report of the specification *)

Lemma key_in_dict_get {V} (k : str) (d : list (str * V)) :
  key_in k (dict_keys d) = match dict_get k d with Some _ => true | None => false end.
Proof.
  unfold key_in, dict_keys. induction d as [|[k' v] d IH]; simpl; [reflexivity|].
  destruct (str_eqb k k'); simpl; [reflexivity|exact IH].
Qed.

Lemma omap_all_some {A B} (f : A -> outcome B) (g : A -> option B) (l : list A) :
  (forall a b, g a = Some b -> f a = Return b) ->
  forall bs, Spec.all_some (map g l) = Some bs -> omap f l = Return bs.
Proof.
  intro Hfg. induction l as [|a l IH]; simpl; intros bs H.
  - now injection H as <-.
  - destruct (g a) as [b|] eqn:Ea; [|discriminate].
    destruct (Spec.all_some (map g l)) as [bs'|]; [|discriminate].
    injection H as <-. rewrite (Hfg _ _ Ea), (IH _ eq_refl). reflexivity.
Qed.

Lemma dataset_errors_report (dx e : json) :
  Spec.dataset_report dx = Some e -> dataset_errors dx = Return e.
Proof.
  unfold Spec.dataset_report, dataset_errors, getitem.
  destruct dx as [| | | | |d]; try discriminate.
  destruct (dict_get (lit "ValidationReport") d) as [[| | | |[|[| | | | |r0] more]|]|];
    try discriminate.
  intro H. cbv -[lit dict_get]. rewrite H. reflexivity.
Qed.

Lemma status_reports_loop (status : list (str * json)) (L : list json) :
  Spec.status_reports status = Some L ->
  exists ds, getitem (JDict status) (lit "Datasets") = Return (JList ds)
             /\ omap dataset_errors ds = Return L.
Proof.
  unfold Spec.status_reports, getitem.
  destruct (dict_get (lit "Datasets") status) as [[| | | |ds|]|]; try discriminate.
  intro H. exists ds. split; [reflexivity|].
  now apply (omap_all_some dataset_errors Spec.dataset_report ds dataset_errors_report).
Qed.

(** ** The dataset validator *)

Section Validator.

Variable json_loads : str -> option json.
Variable ServerState : Type.
Variable handle : ServerState -> request -> option Response * ServerState.
Variable read_file : str -> option bytes.
Variable credentials : Credentials.

Variables (api_params : ApiParams) (filepath delimiter : str).
Variable w : world ServerState.

Local Abbreviation validate :=
  (validate_single_dataset_fmr json_loads handle read_file credentials
     api_params filepath delimiter).

(** The run reaches the load request and the registry answers it with
    [val_req]. *)
Variables (auth_headers : headers) (content : bytes)
          (val_req : Response) (s1 : ServerState).

Hypothesis auth_ok :
  fmr_auth api_params (user credentials) (password credentials) = Return auth_headers.
Hypothesis file_ok : read_file filepath = Some content.
Hypothesis load_response :
  handle (server w) (load_request api_params content delimiter) = (Some val_req, s1).

(** C2: a load response whose status code is not 200 gives
    [(False, {"ValidationReport": "Error with load endpoint"})], and no
    GET is issued: the run is the upload, the wait and one log line. *)
Theorem load_not_200 :
  status_code val_req <> 200%Z ->
  validate w =
    (Return (false, JDict [(lit "ValidationReport", JStr (lit "Error with load endpoint"))]),
     {| server := s1;
        trace := trace w ++
          [EvOpen filepath;
           EvRequest (load_request api_params content delimiter);
           EvSleep 5;
           EvLog (lit ">>>>>>>>> Error with load endpoint: %s") [JStr (text val_req)]] |})
  /\ filter is_get (trace (snd (validate w))) = filter is_get (trace w).
Proof.
  intro Hcode. apply Z.eqb_neq in Hcode.
  assert (E : validate w =
    (Return (false, JDict [(lit "ValidationReport", JStr (lit "Error with load endpoint"))]),
     {| server := s1;
        trace := trace w ++
          [EvOpen filepath;
           EvRequest (load_request api_params content delimiter);
           EvSleep 5;
           EvLog (lit ">>>>>>>>> Error with load endpoint: %s") [JStr (text val_req)]] |})).
  { unfold validate_single_dataset_fmr.
    lift_ok auth_ok. open_ok file_ok. send_ok load_response. steps.
    rewrite Hcode. steps. tidy. reflexivity. }
  split; [exact E|].
  rewrite E. cbn [snd trace]. rewrite filter_app. cbn. apply app_nil_r.
Qed.

(** The load response is HTTP 200 with a JSON body that has a [uid], and
    the registry answers the status request with the JSON object
    [status]. *)
Variables (load_doc : list (str * json)) (uid : json)
          (r : Response) (s2 : ServerState) (status : list (str * json)).

Hypothesis load_200 : status_code val_req = 200%Z.
Hypothesis load_json : json_loads (text val_req) = Some (JDict load_doc).
Hypothesis load_uid : dict_get (lit "uid") load_doc = Some uid.
Hypothesis status_response :
  handle s1 (load_status_request api_params uid) = (Some r, s2).
Hypothesis status_json : json_loads (text r) = Some (JDict status).

Lemma uid_read : getitem (JDict load_doc) (lit "uid") = Return uid.
Proof. unfold getitem. now rewrite load_uid. Qed.

Lemma load_is_200 : (status_code val_req =? 200)%Z = true.
Proof. rewrite load_200. reflexivity. Qed.

Lemma status_keys : keys (JDict status) = Return (dict_keys status).
Proof. reflexivity. Qed.

(** C1: when the status has the key ['Errors'], a falsy value gives
    [(True, {})]; a truthy value gives [(False, {"ValidationReport": L})]
    with [L] the list of each dataset's [ValidationReport[0].Errors], in
    the order of the status's ['Datasets']. *)
Theorem status_with_errors_key (errs : json) :
  dict_get (lit "Errors") status = Some errs ->
  (truthy errs = false -> fst (validate w) = Return (true, JDict []))
  /\ (truthy errs = true ->
      forall L, Spec.status_reports status = Some L ->
      fst (validate w) = Return (false, JDict [(lit "ValidationReport", JList L)])).
Proof.
  intro Herrs.
  assert (Hkey : key_in (lit "Errors") (dict_keys status) = true)
    by (rewrite key_in_dict_get, Herrs; reflexivity).
  assert (Hget : getitem (JDict status) (lit "Errors") = Return errs)
    by (unfold getitem; now rewrite Herrs).
  split.
  - intro Hfalsy.
    unfold validate_single_dataset_fmr.
    lift_ok auth_ok. open_ok file_ok. send_ok load_response. steps.
    rewrite load_is_200. steps. erewrite run_try_return; cycle 1.
    { json_ok load_json. lift_ok uid_read. send_ok status_response.
      json_ok status_json. lift_ok status_keys.
      rewrite Hkey. lift_ok Hget. rewrite Hfalsy. steps. reflexivity. }
    reflexivity.
  - intros Htruthy L HL.
    destruct (status_reports_loop status HL) as (ds & Hds & Hloop).
    unfold validate_single_dataset_fmr.
    lift_ok auth_ok. open_ok file_ok. send_ok load_response. steps.
    rewrite load_is_200. steps. erewrite run_try_return; cycle 1.
    { json_ok load_json. lift_ok uid_read. send_ok status_response.
      json_ok status_json. lift_ok status_keys.
      rewrite Hkey. lift_ok Hget. rewrite Htruthy. steps.
      lift_ok Hds. rewrite run_lift with (a := ds) by reflexivity.
      lift_ok Hloop. steps. reflexivity. }
    reflexivity.
Qed.

(** C3: when the status object has neither the key ['Errors'] nor the
    key ['Error'], no branch assigns [validated_bool] and [error_dict]:
    the [return] statement raises [UnboundLocalError] and no pair is
    returned. *)
Theorem status_without_keys :
  dict_get (lit "Errors") status = None ->
  dict_get (lit "Error") status = None ->
  fst (validate w) = Raise (UnboundLocalError (lit "validated_bool"))
  /\ forall result, fst (validate w) <> Return result.
Proof.
  intros HErrors HError.
  assert (E : fst (validate w) = Raise (UnboundLocalError (lit "validated_bool"))).
  { unfold validate_single_dataset_fmr.
    lift_ok auth_ok. open_ok file_ok. send_ok load_response. steps.
    rewrite load_is_200. steps. erewrite run_try_return; cycle 1.
    { json_ok load_json. lift_ok uid_read. send_ok status_response.
      json_ok status_json. lift_ok status_keys.
      rewrite (key_in_dict_get (lit "Errors") status), HErrors. steps.
      lift_ok status_keys.
      rewrite (key_in_dict_get (lit "Error") status), HError. steps.
      reflexivity. }
    reflexivity. }
  split; [exact E|]. intros result H. rewrite E in H. discriminate.
Qed.

End Validator.

(** C1, as stated, fails on a status object that has a truthy ['Errors']
    and no ['Datasets']: the load response is HTTP 200 with a [uid], the
    status is a JSON object with the key ['Errors'], and the call raises
    [KeyError] instead of returning a pair. *)
Lemma status_with_errors_key_counterexample :
  Mock.decoder Cases.table Cases.errors_only_body
  = Some (JDict [(lit "Errors", JBool true)])
  /\ fst (validate_single_dataset_fmr (Mock.decoder Cases.table) Mock.scripted
            Mock.files Mock.creds Mock.api (lit "data.csv") (lit "comma")
            (Mock.start [Mock.ok Mock.load_body; Mock.ok Cases.errors_only_body]))
     = Raise (KeyError (JStr (lit "Datasets")))
  /\ forall result,
       fst (validate_single_dataset_fmr (Mock.decoder Cases.table) Mock.scripted
              Mock.files Mock.creds Mock.api (lit "data.csv") (lit "comma")
              (Mock.start [Mock.ok Mock.load_body; Mock.ok Cases.errors_only_body]))
       <> Return result.
Proof.
  split; [reflexivity|]. split; [reflexivity|].
  intros result H. vm_compute in H. discriminate.
Qed.

(** ** The codelist writer *)

Lemma all_some_omap_getitem (items : list json) (ids : list json) :
  Spec.all_some (map Spec.item_id_of items) = Some ids ->
  omap (fun i => getitem i (lit "id")) items = Return ids.
Proof.
  apply (omap_all_some (fun i => getitem i (lit "id")) Spec.item_id_of).
  intros [| | | | |d] v; try discriminate. unfold Spec.item_id_of, getitem.
  now intros ->.
Qed.

(** The shape of a document from which the writer can read the ids. *)
Lemma item_id_set_shape (req : json) (ids : list json) :
  Spec.item_id_set req = Some ids ->
  exists d c0 rest items,
    req = JDict d
    /\ dict_get (lit "Codelist") d = Some (JList (JDict c0 :: rest))
    /\ dict_get (lit "items") c0 = Some (JList items)
    /\ Spec.all_some (map Spec.item_id_of items) = Some ids.
Proof.
  unfold Spec.item_id_set, Spec.codelist_item_list.
  destruct req as [| | | | |d]; try discriminate.
  destruct (dict_get (lit "Codelist") d) as [[| | | |[|[| | | | |c0] rest]|]|] eqn:Ecl;
    try discriminate.
  destruct (dict_get (lit "items") c0) as [[| | | |items|]|] eqn:Eit; try discriminate.
  intro H. now exists d, c0, rest, items.
Qed.

Lemma existing_ids_spec (req : json) (ids : list json) :
  Spec.item_id_set req = Some ids -> existing_ids req = Return ids.
Proof.
  intro H. destruct (item_id_set_shape req H) as (d & c0 & rest & items & -> & Ecl & Eit & Hids).
  unfold existing_ids, codelist_items, getitem. rewrite Ecl.
  cbv -[lit dict_get omap getitem]. rewrite Eit.
  cbv -[lit dict_get omap getitem].
  now apply all_some_omap_getitem.
Qed.

Lemma replace_items_spec (req payload : json) (ids : list json) :
  Spec.item_id_set req = Some ids ->
  exists body, Spec.with_items req (JList [payload]) = Some body
               /\ replace_items req payload = Return body.
Proof.
  intro H. destruct (item_id_set_shape req H) as (d & c0 & rest & items & -> & Ecl & Eit & Hids).
  unfold Spec.with_items, replace_items, getitem. rewrite Ecl.
  eexists. split; reflexivity.
Qed.

Lemma fmr_auth_shape (api_params : ApiParams) (u p : str) (h : headers) :
  fmr_auth api_params u p = Return h ->
  exists token, h = [(lit "Authorization", token);
                     (lit "Content-Type", lit "application/json")].
Proof.
  unfold fmr_auth.
  destruct (Codec.utf8_encode (u ++ lit ":" ++ p)) as [b| |]; try discriminate.
  cbn [obind].
  destruct (Codec.ascii_decode (Codec.b64encode b)) as [t| |]; try discriminate.
  cbn [obind]. intro H. injection H as <-. eexists. reflexivity.
Qed.

Section Writer.

Variable json_loads : str -> option json.
Variable ServerState : Type.
Variable handle : ServerState -> request -> option Response * ServerState.
Variable credentials : Credentials.

Variables (api_params : ApiParams)
          (codelist_id item_id item_description agency action : str).

Local Abbreviation add_single :=
  (add_single_item_to_codelist json_loads handle credentials api_params
     codelist_id item_id item_description agency action).

Local Abbreviation fetch := (Get (codelist_url api_params agency codelist_id) []).

Variable auth_headers : headers.
Hypothesis auth_ok :
  fmr_auth api_params (user credentials) (password credentials) = Return auth_headers.

(** The [except] block never completes: the second GET fails, or its
    body is not JSON either, or it is JSON and has no [text]. *)
Lemma diagnose_raises (w : world ServerState) :
  exists e s',
    diagnose json_loads handle api_params codelist_id agency w =
    (Raise e, {| server := s'; trace := trace w ++ [EvRequest fetch] |})
    /\ (e = RequestException \/ e = JSONDecodeError
        \/ e = AttributeError (lit "text")).
Proof.
  unfold diagnose.
  destruct (handle (server w) fetch) as [[r|] s'] eqn:E.
  - send_ok E. destruct (json_loads (text r)) as [j|] eqn:EJ.
    + json_ok EJ. rewrite run_lift_raise with (e := AttributeError (lit "text"))
        by (destruct j; reflexivity).
      eauto 6.
    + rewrite run_json_fail by exact EJ. eauto 6.
  - rewrite run_send_fail with (s' := s') by exact E. eauto 6.
Qed.

(** One call on a codelist that already has the item. *)
Lemma existing_item_run (w : world ServerState) (resp : Response) (s1 : ServerState)
    (req : json) (ids : list json) :
  handle (server w) fetch = (Some resp, s1) ->
  json_loads (text resp) = Some req ->
  Spec.item_id_set req = Some ids ->
  str_in_list item_id ids = true ->
  add_single w =
    (Return true,
     {| server := s1;
        trace := trace w ++
          [EvRequest fetch;
           EvLog (lit ">>>>>>>>> ID already exists in codelist...") []] |}).
Proof.
  intros Hfetch Hjson Hids Hin.
  unfold add_single_item_to_codelist.
  lift_ok auth_ok. erewrite run_try_return; cycle 1.
  { unfold fetch_and_add. send_ok Hfetch. json_ok Hjson.
    lift_ok (existing_ids_spec req Hids). rewrite Hin. cbn [negb].
    unfold logger_info, emit. tidy. reflexivity. }
  reflexivity.
Qed.

(** C4: on a codelist whose item ids contain [item_id] the writer
    fetches, logs that the id exists and returns [True] without a POST;
    called twice on such a codelist, neither call issues a POST. *)
Theorem existing_item_no_post (w : world ServerState) (resp : Response)
    (s1 : ServerState) (req : json) (ids : list json) :
  handle (server w) fetch = (Some resp, s1) ->
  json_loads (text resp) = Some req ->
  Spec.item_id_set req = Some ids ->
  str_in_list item_id ids = true ->
  add_single w =
    (Return true,
     {| server := s1;
        trace := trace w ++
          [EvRequest fetch;
           EvLog (lit ">>>>>>>>> ID already exists in codelist...") []] |})
  /\ filter is_post (trace (snd (add_single w))) = filter is_post (trace w)
  /\ forall resp2 s2 req2 ids2,
       handle s1 fetch = (Some resp2, s2) ->
       json_loads (text resp2) = Some req2 ->
       Spec.item_id_set req2 = Some ids2 ->
       str_in_list item_id ids2 = true ->
       bind add_single (fun _ => add_single) w =
         (Return true,
          {| server := s2;
             trace := trace w ++
               [EvRequest fetch;
                EvLog (lit ">>>>>>>>> ID already exists in codelist...") [];
                EvRequest fetch;
                EvLog (lit ">>>>>>>>> ID already exists in codelist...") []] |}).
Proof.
  intros Hfetch Hjson Hids Hin.
  pose proof (existing_item_run w Hfetch Hjson Hids Hin) as E1.
  split; [exact E1|]. split.
  - rewrite E1. cbn [snd trace]. rewrite filter_app. cbn. apply app_nil_r.
  - intros resp2 s2 req2 ids2 Hfetch2 Hjson2 Hids2 Hin2.
    unfold bind at 1. rewrite E1.
    erewrite existing_item_run by eassumption.
    tidy. reflexivity.
Qed.

(** One call whose fetch is answered with a body that is not JSON. *)
Lemma not_json_run (w : world ServerState) (resp : Response) (s1 : ServerState) :
  handle (server w) fetch = (Some resp, s1) ->
  json_loads (text resp) = None ->
  exists e s2,
    add_single w =
      (Raise e, {| server := s2;
                   trace := trace w ++ [EvRequest fetch; EvRequest fetch] |})
    /\ (e = RequestException \/ e = JSONDecodeError
        \/ e = AttributeError (lit "text")).
Proof.
  intros Hfetch Hjson.
  destruct (diagnose_raises {| server := s1; trace := trace w ++ [EvRequest fetch] |})
    as (e & s2 & Ed & He).
  exists e, s2. split; [|exact He].
  unfold add_single_item_to_codelist.
  lift_ok auth_ok. erewrite run_try_caught; cycle 1.
  { unfold fetch_and_add. send_ok Hfetch. rewrite run_json_fail by exact Hjson.
    reflexivity. }
  { reflexivity. }
  unfold bind. rewrite Ed. tidy. reflexivity.
Qed.

(** C6: when the body of the fetch is not valid JSON the same GET is
    sent again, but the call then raises: nothing is logged and [True]
    is not returned. *)
Theorem fetch_not_json (w : world ServerState) (resp : Response) (s1 : ServerState) :
  handle (server w) fetch = (Some resp, s1) ->
  json_loads (text resp) = None ->
  exists e w',
    add_single w = (Raise e, w')
    /\ trace w' = trace w ++ [EvRequest fetch; EvRequest fetch]
    /\ filter is_log (trace w') = filter is_log (trace w)
    /\ (e = RequestException \/ e = JSONDecodeError
        \/ e = AttributeError (lit "text")).
Proof.
  intros Hfetch Hjson.
  destruct (not_json_run w Hfetch Hjson) as (e & s2 & E & He).
  exists e. eexists. split; [exact E|]. cbn [trace]. split; [reflexivity|].
  split; [|exact He].
  rewrite filter_app. cbn. apply app_nil_r.
Qed.

(** C7: a batch whose first item meets a body that is not JSON ends
    there with an exception: the other items are never fetched and
    [True] is not returned. *)
Theorem batch_stops_at_failure (w : world ServerState) (it : item) (others : list item)
    (resp : Response) (s1 : ServerState) :
  dict_get (lit "id") it = Some item_id ->
  dict_get (lit "description") it = Some item_description ->
  handle (server w) fetch = (Some resp, s1) ->
  json_loads (text resp) = None ->
  exists e w',
    add_items_to_codelist json_loads handle credentials api_params codelist_id
      (it :: others) agency action w = (Raise e, w')
    /\ trace w' = trace w ++
         [EvLog (lit ">>>>> Adding items to codelist %s...") [JStr codelist_id];
          EvLog (lit ">>>>>>> Item: %s") [JStr item_id];
          EvRequest fetch; EvRequest fetch].
Proof.
  intros Hid Hdescr Hfetch Hjson.
  assert (Gid : item_get it (lit "id") = Return item_id)
    by (unfold item_get; now rewrite Hid).
  assert (Gdescr : item_get it (lit "description") = Return item_description)
    by (unfold item_get; now rewrite Hdescr).
  destruct (not_json_run
              {| server := server w;
                 trace := (trace w ++
                   [EvLog (lit ">>>>> Adding items to codelist %s...") [JStr codelist_id]])
                   ++ [EvLog (lit ">>>>>>> Item: %s") [JStr item_id]] |}
              Hfetch Hjson) as (e & s2 & E & _).
  exists e. eexists. split.
  - unfold add_items_to_codelist. steps. cbn [foreach].
    lift_ok Gid. lift_ok Gid. lift_ok Gdescr. steps.
    unfold bind at 1. rewrite E. reflexivity.
  - tidy. reflexivity.
Qed.

(** A batch on a registry that lists every item of the batch at every
    fetch: one fetch per item, in the order of the list, no POST, and
    [True]. *)
Lemma batch_of_present_items (item_list : list item) (fields : list (str * str)) :
  Forall2 Spec.item_fields item_list fields ->
  (forall s, exists resp s' req ids,
     handle s fetch = (Some resp, s')
     /\ json_loads (text resp) = Some req
     /\ Spec.item_id_set req = Some ids
     /\ forall f, In f fields -> str_in_list (fst f) ids = true) ->
  forall w, exists s',
    add_items_to_codelist json_loads handle credentials api_params codelist_id
      item_list agency action w =
    (Return true,
     {| server := s';
        trace := trace w ++
          EvLog (lit ">>>>> Adding items to codelist %s...") [JStr codelist_id]
          :: Spec.present_items_trace fetch fields |}).
Proof.
  intros Hfields Hserved w.
  unfold add_items_to_codelist. steps.
  set (body := fun it : item => _).
  assert (Hloop : forall w0, exists s',
    foreach body item_list w0 =
    (Return tt, {| server := s';
                   trace := trace w0 ++ Spec.present_items_trace fetch fields |})).
  { clear w. induction Hfields as [|it f items fs [Hid Hdescr] _ IH]; intro w0.
    - exists (server w0). cbn. rewrite app_nil_r. now destruct w0.
    - assert (Hin : forall g, In g fs -> forall ids,
                (forall f', In f' (f :: fs) -> str_in_list (fst f') ids = true) ->
                str_in_list (fst g) ids = true)
        by (intros g Hg ids H; apply H; now right).
      destruct (Hserved (server w0)) as (resp & s1 & req & ids & Hf & Hj & Hi & Hall).
      assert (Gid : item_get it (lit "id") = Return (fst f))
        by (unfold item_get; now rewrite Hid).
      assert (Gdescr : item_get it (lit "description") = Return (snd f))
        by (unfold item_get; now rewrite Hdescr).
      destruct IH with
        (w0 := {| server := s1;
                  trace := (trace w0 ++ [EvLog (lit ">>>>>>> Item: %s") [JStr (fst f)]])
                    ++ [EvRequest fetch;
                        EvLog (lit ">>>>>>>>> ID already exists in codelist...") []] |})
        as (s' & Erest).
      { intros s. destruct (Hserved s) as (r' & s2 & q & i' & ? & ? & ? & H').
        exists r', s2, q, i'. repeat split; try assumption.
        intros g Hg. apply H'. now right. }
      exists s'. cbn [foreach]. unfold body at 1.
      lift_ok Gid. lift_ok Gid. lift_ok Gdescr.
      assert (Erun : add_single_item_to_codelist json_loads handle credentials
                api_params codelist_id (fst f) (snd f) agency action
                {| server := server w0;
                   trace := trace w0 ++ [EvLog (lit ">>>>>>> Item: %s") [JStr (fst f)]] |}
              = (Return true,
                 {| server := s1;
                    trace := (trace w0 ++ [EvLog (lit ">>>>>>> Item: %s") [JStr (fst f)]])
                      ++ [EvRequest fetch;
                          EvLog (lit ">>>>>>>>> ID already exists in codelist...") []] |})).
      { unfold add_single_item_to_codelist.
        lift_ok auth_ok. erewrite run_try_return; cycle 1.
        { unfold fetch_and_add. send_ok Hf. json_ok Hj.
          lift_ok (existing_ids_spec req Hi).
          rewrite (Hall f (or_introl eq_refl)). cbn [negb].
          unfold logger_info, emit. tidy. reflexivity. }
        tidy. reflexivity. }
      unfold bind at 1. rewrite Erun. steps.
      fold body. rewrite Erest. tidy. reflexivity. }
  destruct (Hloop {| server := server w;
                     trace := trace w ++
                       [EvLog (lit ">>>>> Adding items to codelist %s...")
                              [JStr codelist_id]] |}) as (s' & E).
  exists s'. unfold bind. rewrite E. tidy. reflexivity.
Qed.

(** C5: on a codelist without the item the writer posts, to the
    items-add endpoint, the fetched document with [Codelist[0].items]
    replaced by the one new item, under the authentication headers and
    an [ACTION] header. *)
Theorem new_item_post (w : world ServerState) (resp : Response) (s1 : ServerState)
    (req : json) (ids : list json) :
  handle (server w) fetch = (Some resp, s1) ->
  json_loads (text resp) = Some req ->
  Spec.item_id_set req = Some ids ->
  str_in_list item_id ids = false ->
  exists body,
    Spec.with_items req
      (JList [JDict [(lit "id", JStr item_id);
                     (lit "names",
                      JList [JDict [(lit "locale", JStr (lit "en"));
                                    (lit "value", JStr item_description)]])]])
    = Some body
    /\ exists rest,
         trace (snd (add_single w)) =
           trace w ++
           EvRequest fetch
           :: EvRequest (Post (url api_params ++ items_add_item_endpoint api_params)
                              (auth_headers ++ [(lit "ACTION", action)])
                              (JsonBody body))
           :: rest
         /\ filter is_post rest = [].
Proof.
  intros Hfetch Hjson Hids Hnew.
  destruct (replace_items_spec req (temp_payload item_id item_description) Hids)
    as (body & Hbody & Hrep).
  exists body. split; [exact Hbody|].
  destruct (fmr_auth_shape _ _ _ auth_ok) as (token & Hh).
  assert (Hheaders : dict_set (lit "ACTION") action auth_headers
                     = auth_headers ++ [(lit "ACTION", action)])
    by (rewrite Hh; reflexivity).
  set (post := Post (url api_params ++ items_add_item_endpoint api_params)
                    (auth_headers ++ [(lit "ACTION", action)]) (JsonBody body)).
  unfold add_single_item_to_codelist. lift_ok auth_ok.
  destruct (handle s1 post) as [[response|] s2] eqn:EP.
  - destruct (str_contains (lit "Success") (text response)) eqn:ES.
    + erewrite run_try_return; cycle 1.
      { unfold fetch_and_add. send_ok Hfetch. json_ok Hjson.
        lift_ok (existing_ids_spec req Hids). rewrite Hnew. cbn [negb].
        lift_ok Hrep. cbv zeta. rewrite Hheaders. unfold add_item_url.
        send_ok EP. rewrite ES. unfold logger_info, emit. reflexivity. }
      eexists. tidy. split; reflexivity.
    + destruct (json_loads (text response)) as [j|] eqn:EJ.
      * erewrite run_try_return; cycle 1.
        { unfold fetch_and_add. send_ok Hfetch. json_ok Hjson.
          lift_ok (existing_ids_spec req Hids). rewrite Hnew. cbn [negb].
          lift_ok Hrep. cbv zeta. rewrite Hheaders. unfold add_item_url.
          send_ok EP. rewrite ES. json_ok EJ.
          unfold logger_info, emit. reflexivity. }
        eexists. tidy. split; reflexivity.
      * destruct (diagnose_raises
                    {| server := s2;
                       trace := (trace w ++ [EvRequest fetch]) ++ [EvRequest post] |})
          as (e & s3 & Ed & _).
        erewrite run_try_caught; cycle 1.
        { unfold fetch_and_add. send_ok Hfetch. json_ok Hjson.
          lift_ok (existing_ids_spec req Hids). rewrite Hnew. cbn [negb].
          lift_ok Hrep. cbv zeta. rewrite Hheaders. unfold add_item_url.
          send_ok EP. rewrite ES. rewrite run_json_fail by exact EJ.
          reflexivity. }
        { reflexivity. }
        unfold bind. subst post. rewrite Ed.
        eexists. tidy. split; reflexivity.
  - erewrite run_try_uncaught; cycle 1.
    { unfold fetch_and_add. send_ok Hfetch. json_ok Hjson.
      lift_ok (existing_ids_spec req Hids). rewrite Hnew. cbn [negb].
      lift_ok Hrep. cbv zeta. rewrite Hheaders. unfold add_item_url.
      rewrite run_send_fail with (s' := s2) by exact EP. reflexivity. }
    { reflexivity. }
    exists []. tidy. split; reflexivity.
Qed.

End Writer.

(** ** Computations that never leave the process *)

Lemma no_exit_obind {A B} (o : outcome A) (k : A -> outcome B) :
  no_exit o -> (forall a, no_exit (k a)) -> no_exit (obind o k).
Proof. unfold no_exit. destruct o; simpl; auto; discriminate. Qed.

Lemma no_exit_omap {A B} (f : A -> outcome B) (l : list A) :
  (forall a, no_exit (f a)) -> no_exit (omap f l).
Proof.
  intro Hf. induction l as [|a l IH]; simpl; [discriminate|].
  apply no_exit_obind; [apply Hf|]. intro b.
  apply no_exit_obind; [exact IH|]. discriminate.
Qed.

Lemma no_exit_ofold {A S} (f : S -> A -> outcome S) (l : list A) (s : S) :
  (forall s a, no_exit (f s a)) -> no_exit (ofold f l s).
Proof.
  intro Hf. revert s. induction l as [|a l IH]; simpl; intro s; [discriminate|].
  apply no_exit_obind; [apply Hf|]. intro s'. apply IH.
Qed.

Lemma no_exit_getitem (o : json) (k : str) : no_exit (getitem o k).
Proof.
  unfold no_exit, getitem. destruct o; try discriminate.
  destruct (dict_get k d); discriminate.
Qed.

Lemma no_exit_getitem_int (o : json) (i : Z) : no_exit (getitem_int o i).
Proof.
  unfold no_exit, getitem_int. destruct o; try discriminate.
  - destruct (seq_index s i); discriminate.
  - destruct (seq_index l i); discriminate.
Qed.

Lemma no_exit_setitem (o : json) (k : str) (v : json) : no_exit (setitem o k v).
Proof. unfold no_exit, setitem. destruct o; discriminate. Qed.

Lemma no_exit_iter (o : json) : no_exit (iter o).
Proof. unfold no_exit, iter. destruct o; discriminate. Qed.

Lemma no_exit_keys (o : json) : no_exit (keys o).
Proof. unfold no_exit, keys. destruct o; discriminate. Qed.

Lemma no_exit_text_attr (o : json) : no_exit (text_attr o).
Proof. unfold no_exit, text_attr. discriminate. Qed.

Lemma no_exit_pydict_setitem (d : pydict) (k v : json) : no_exit (pydict_setitem d k v).
Proof. unfold no_exit, pydict_setitem. destruct (hashable k); discriminate. Qed.

Lemma no_exit_item_get (it : item) (k : str) : no_exit (item_get it k).
Proof. unfold no_exit, item_get. destruct (dict_get k it); discriminate. Qed.

Lemma no_exit_utf8_encode (s : str) : no_exit (Codec.utf8_encode s).
Proof.
  induction s as [|c s IH]; simpl; [discriminate|].
  apply no_exit_obind.
  - unfold no_exit, Codec.utf8_encode_char.
    repeat match goal with |- context [if ?b then _ else _] => destruct b end;
      discriminate.
  - intro b. apply no_exit_obind; [exact IH|]. discriminate.
Qed.

Lemma no_exit_ascii_decode (b : bytes) : no_exit (Codec.ascii_decode b).
Proof.
  induction b as [|x b IH]; simpl; [discriminate|].
  destruct (x <? 128)%N; [|discriminate].
  apply no_exit_obind; [exact IH|]. discriminate.
Qed.

Create HintDb noexit.

#[export] Hint Resolve no_exit_getitem no_exit_getitem_int no_exit_setitem
  no_exit_iter no_exit_keys no_exit_text_attr no_exit_pydict_setitem
  no_exit_item_get no_exit_utf8_encode no_exit_ascii_decode : noexit.

Ltac no_exit_tac :=
  repeat first
    [ apply no_exit_obind; [|intro]
    | apply no_exit_omap; intro
    | apply no_exit_ofold; intros
    | solve [auto with noexit]
    | discriminate ].

Lemma no_exit_fmr_auth (api_params : ApiParams) (u p : str) :
  no_exit (fmr_auth api_params u p).
Proof. unfold fmr_auth. no_exit_tac. Qed.

Lemma no_exit_codelist_items (doc : json) : no_exit (codelist_items doc).
Proof. unfold codelist_items. no_exit_tac. Qed.

Lemma no_exit_existing_ids (req : json) : no_exit (existing_ids req).
Proof. unfold existing_ids, codelist_items. no_exit_tac. Qed.

Lemma no_exit_replace_items (req payload : json) : no_exit (replace_items req payload).
Proof. unfold replace_items. no_exit_tac. Qed.

Lemma no_exit_dataset_errors (dx : json) : no_exit (dataset_errors dx).
Proof. unfold dataset_errors. no_exit_tac. Qed.

#[export] Hint Resolve no_exit_fmr_auth no_exit_codelist_items no_exit_existing_ids
  no_exit_replace_items no_exit_dataset_errors : noexit.

Section NeverExits.

Variable json_loads : str -> option json.
Variable ServerState : Type.
Variable handle : ServerState -> request -> option Response * ServerState.
Variable read_file : str -> option bytes.
Variable credentials : Credentials.
Variable abspath_cwd : str.

Local Abbreviation M' := (M ServerState).

Lemma ne_ret {A} (a : A) : never_exits (ret a : M' A).
Proof. intro w. discriminate. Qed.

Lemma ne_lift {A} (o : outcome A) : no_exit o -> never_exits (lift o : M' A).
Proof. intros H w. exact H. Qed.

Lemma ne_emit (e : event) : never_exits (emit e : M' unit).
Proof. intro w. discriminate. Qed.

Lemma ne_log (fmt : string) (args : list json) :
  never_exits (logger_info fmt args : M' unit).
Proof. intro w. discriminate. Qed.

Lemma ne_send (r : request) : never_exits (send handle r).
Proof.
  intro w. unfold send. destruct (handle (server w) r) as [[resp|] s']; discriminate.
Qed.

Lemma ne_json (r : Response) : never_exits (response_json json_loads r : M' json).
Proof.
  intro w. unfold response_json, lift. destruct (json_loads (text r)); discriminate.
Qed.

Lemma ne_bind {A B} (c : M' A) (k : A -> M' B) :
  never_exits c -> (forall a, never_exits (k a)) -> never_exits (bind c k).
Proof.
  intros Hc Hk w. unfold bind. specialize (Hc w).
  destruct (c w) as [[a|e|] w']; cbn in *; [apply Hk|discriminate|congruence].
Qed.

Lemma ne_open (path : str) : never_exits (open_rb read_file path : M' bytes).
Proof.
  unfold open_rb. apply ne_bind; [apply ne_emit|]. intros _. apply ne_lift.
  destruct (read_file path); discriminate.
Qed.

Lemma ne_try {A} (body handler : M' A) (catches : exn -> bool) :
  never_exits body -> never_exits handler ->
  never_exits (try_except body catches handler).
Proof.
  intros Hb Hh w. unfold try_except. specialize (Hb w).
  destruct (body w) as [[a|e|] w']; cbn in *; [discriminate| |congruence].
  destruct (catches e); [apply Hh|discriminate].
Qed.

Lemma ne_foreach {A} (f : A -> M' unit) (l : list A) :
  (forall a, never_exits (f a)) -> never_exits (foreach f l).
Proof.
  intro Hf. induction l as [|a l IH]; simpl; [apply ne_ret|].
  apply ne_bind; [apply Hf|]. intros _. exact IH.
Qed.

Ltac ne_tac :=
  repeat first
    [ apply ne_ret | apply ne_emit | apply ne_log | apply ne_send | apply ne_json
    | apply ne_open
    | apply ne_lift; solve [no_exit_tac]
    | apply ne_bind; [|intro]
    | apply ne_try
    | apply ne_foreach; intro
    | match goal with
      | |- never_exits (if ?b then _ else _) => destruct b
      | |- never_exits (match ?x with _ => _ end) => destruct x
      end ].

Lemma ne_diagnose (api_params : ApiParams) (codelist_id agency : str) :
  never_exits (diagnose json_loads handle api_params codelist_id agency).
Proof. unfold diagnose. ne_tac. Qed.

Lemma ne_fetch_and_add (api_params : ApiParams)
    (codelist_id item_id item_description agency action : str) (h : headers) :
  never_exits (fetch_and_add json_loads handle api_params codelist_id item_id
                 item_description agency action h).
Proof. unfold fetch_and_add. ne_tac. Qed.

Lemma ne_add_single (api_params : ApiParams)
    (codelist_id item_id item_description agency action : str) :
  never_exits (add_single_item_to_codelist json_loads handle credentials api_params
                 codelist_id item_id item_description agency action).
Proof.
  unfold add_single_item_to_codelist.
  apply ne_bind; [apply ne_lift; auto with noexit|]. intro h.
  apply ne_bind; [|intro; apply ne_ret].
  apply ne_try; [apply ne_fetch_and_add | apply ne_diagnose].
Qed.

Lemma ne_add_items (api_params : ApiParams) (codelist_id : str)
    (item_list : list item) (agency action : str) :
  never_exits (add_items_to_codelist json_loads handle credentials api_params
                 codelist_id item_list agency action).
Proof. unfold add_items_to_codelist. ne_tac; apply ne_add_single. Qed.

Lemma ne_validate_single (api_params : ApiParams) (filepath delimiter : str) :
  never_exits (validate_single_dataset_fmr json_loads handle read_file credentials
                 api_params filepath delimiter).
Proof. unfold validate_single_dataset_fmr. ne_tac. Qed.

Lemma ne_validate_loop (api_params : ApiParams) (path delimiter : str)
    (filenames : list str) (validated : list (str * bool)) (error : list (str * json)) :
  never_exits (validate_loop json_loads handle read_file credentials api_params
                 path delimiter filenames validated error).
Proof.
  revert validated error. induction filenames as [|f l IH]; intros validated error;
    cbn [validate_loop]; ne_tac;
    first [apply ne_validate_single | apply IH].
Qed.

Lemma ne_validate_datasets (api_params : ApiParams) (datasets : list (str * json))
    (folder_name : str) (boolean : bool) (delimiter : str) :
  never_exits (validate_datasets_fmr json_loads handle read_file credentials
                 abspath_cwd api_params datasets folder_name boolean delimiter).
Proof. unfold validate_datasets_fmr. ne_tac; apply ne_validate_loop. Qed.

End NeverExits.

(** ** Dicts with hashable keys *)

Lemma key_eqb_norm (a b : json) :
  key_eqb a b = true <-> exists c, key_norm a = Some c /\ key_norm b = Some c.
Proof.
  split.
  - destruct a as [|[|]| | | |], b as [|[|]| | | |];
      cbn [key_eqb num_value key_norm]; intro H;
      try discriminate; try (eexists; split; reflexivity);
      try (apply Z.eqb_eq in H; subst; eexists; split; reflexivity).
    apply str_eqb_eq in H. subst. eexists; split; reflexivity.
  - intros (c & Ha & Hb).
    destruct a as [|[|]| | | |], b as [|[|]| | | |];
      cbn [key_eqb num_value key_norm] in *;
      try discriminate; try congruence; try reflexivity;
      try (apply Z.eqb_eq; congruence).
    apply str_eqb_eq. congruence.
Qed.

Lemma key_eqb_sym (a b : json) : key_eqb a b = true -> key_eqb b a = true.
Proof.
  intro H. apply key_eqb_norm in H as (c & Ha & Hb). apply key_eqb_norm. eauto.
Qed.

Lemma key_eqb_trans (a b c : json) :
  key_eqb a b = true -> key_eqb b c = true -> key_eqb a c = true.
Proof.
  intros H1 H2. apply key_eqb_norm in H1 as (x & Ha & Hb).
  apply key_eqb_norm in H2 as (y & Hb' & Hc). apply key_eqb_norm.
  exists x. split; congruence.
Qed.

Lemma key_eqb_congr (k a b : json) :
  key_eqb a b = true -> key_eqb k a = key_eqb k b.
Proof.
  intro Hab.
  destruct (key_eqb k a) eqn:Ea, (key_eqb k b) eqn:Eb; try reflexivity.
  - rewrite (key_eqb_trans k a b Ea Hab) in Eb. discriminate.
  - rewrite (key_eqb_trans k b a Eb (key_eqb_sym a b Hab)) in Ea. discriminate.
Qed.

Lemma pydict_get_insert (k k' v : json) (d : pydict) :
  pydict_get k (pydict_insert k' v d) =
  if key_eqb k k' then Some v else pydict_get k d.
Proof.
  induction d as [|[k1 v1] d IH]; cbn [pydict_insert pydict_get]; [reflexivity|].
  destruct (key_eqb k' k1) eqn:E1; cbn [pydict_get].
  - rewrite (key_eqb_congr k k' k1 E1). destruct (key_eqb k k1); reflexivity.
  - rewrite IH. destruct (key_eqb k k1) eqn:E2; [|reflexivity].
    destruct (key_eqb k k') eqn:E3; [|reflexivity].
    rewrite (key_eqb_trans k' k k1 (key_eqb_sym k k' E3) E2) in E1. discriminate.
Qed.

Lemma pydict_of_app (es : list (json * json)) (e : json * json) (d : pydict) :
  pydict_of (es ++ [e]) d = pydict_insert (fst e) (snd e) (pydict_of es d).
Proof. unfold pydict_of. rewrite fold_left_app. reflexivity. Qed.

(** Looking a key up in the dict built from the entries finds the last
    entry under that key. *)
Lemma pydict_of_lookup (k : json) (entries : list (json * json)) :
  pydict_get k (pydict_of entries []) = Spec.mapping_lookup k entries.
Proof.
  unfold Spec.mapping_lookup.
  induction entries as [|e es IH] using rev_ind; [reflexivity|].
  rewrite pydict_of_app, pydict_get_insert, rev_app_distr. cbn [rev app find].
  destruct (key_eqb k (fst e)); [reflexivity|exact IH].
Qed.

(** ** The codelist reader *)

Lemma ref_area_step_entry (d : pydict) (it : json) (e : json * json) :
  Spec.item_entry it = Some e ->
  ref_area_step d it = Return (pydict_insert (fst e) (snd e) d).
Proof.
  unfold Spec.item_entry, ref_area_step, getitem.
  destruct it as [| | | | |f]; try discriminate.
  destruct (dict_get (lit "names") f) as [[| | | |[|[| | | | |n0] more]|]|];
    try discriminate.
  destruct (dict_get (lit "id") f) as [i|]; try discriminate.
  destruct (dict_get (lit "value") n0) as [v|] eqn:Ev; try discriminate.
  destruct (hashable v) eqn:Hv; try discriminate.
  intro H. injection H as <-.
  cbv -[lit dict_get pydict_insert hashable]. rewrite Ev.
  cbv -[lit dict_get pydict_insert hashable]. rewrite Hv. reflexivity.
Qed.

Lemma ref_area_loop_entries (items : list json) (entries : list (json * json)) :
  Spec.all_some (map Spec.item_entry items) = Some entries ->
  forall d, ofold ref_area_step items d = Return (pydict_of entries d).
Proof.
  revert entries. induction items as [|it items IH]; cbn [map Spec.all_some];
    intros entries H d.
  - injection H as <-. reflexivity.
  - destruct (Spec.item_entry it) as [e|] eqn:Ee; [|discriminate].
    destruct (Spec.all_some (map Spec.item_entry items)) as [es|]; [|discriminate].
    injection H as <-. cbn [ofold].
    rewrite (ref_area_step_entry d it Ee). cbn [obind].
    rewrite (IH es eq_refl). reflexivity.
Qed.

Lemma codelist_items_spec (doc : json) (items : list json) :
  Spec.codelist_item_list doc = Some items -> codelist_items doc = Return items.
Proof.
  unfold Spec.codelist_item_list, codelist_items, getitem.
  destruct doc as [| | | | |d]; try discriminate.
  destruct (dict_get (lit "Codelist") d) as [[| | | |[|[| | | | |c0] rest]|]|];
    try discriminate.
  destruct (dict_get (lit "items") c0) as [[| | | |l|]|] eqn:Ei; try discriminate.
  intro H. injection H as <-.
  cbv -[lit dict_get]. rewrite Ei. reflexivity.
Qed.

Section Reader.

Variable json_loads : str -> option json.
Variable ServerState : Type.
Variable handle : ServerState -> request -> option Response * ServerState.

Variable api_params : ApiParams.
Variable w : world ServerState.

Local Abbreviation reader := (get_ref_area_codelist json_loads handle api_params).
Local Abbreviation fetch := (Get (ref_area_url api_params) []).
Local Abbreviation announce :=
  (EvLog (lit ">>>>> Getting values for the codelist %s...")
         [JStr (codelist_endpoint_ref_area api_params)]).

(** The registry answers the codelist request with [resp]. *)
Variables (resp : Response) (s1 : ServerState).
Hypothesis fetch_response : handle (server w) fetch = (Some resp, s1).

(** C8: the reader returns the mapping from each item's first name
    value to the item's id, for the items of [Codelist[0].items]; for the
    response of the example this is [{"Not classified": "INX"}]. *)
Theorem reader_mapping (doc : json) (entries : list (json * json)) :
  json_loads (text resp) = Some doc ->
  Spec.codelist_entries doc = Some entries ->
  exists r,
    reader w = (Return r, {| server := s1; trace := trace w ++ [announce; EvRequest fetch] |})
    /\ (forall k, pydict_get k r = Spec.mapping_lookup k entries)
    /\ (doc = Mock.codelist_doc ->
        r = [(JStr (lit "Not classified"), JStr (lit "INX"))]).
Proof.
  intros Hjson Hentries.
  unfold Spec.codelist_entries in Hentries.
  destruct (Spec.codelist_item_list doc) as [items|] eqn:Hitems; [|discriminate].
  exists (pydict_of entries []). split; [|split].
  - unfold get_ref_area_codelist. steps.
    erewrite run_try_return; cycle 1.
    { send_ok fetch_response. unfold response_json, lift. rewrite Hjson. reflexivity. }
    lift_ok (codelist_items_spec doc Hitems).
    unfold lift. rewrite (ref_area_loop_entries items Hentries). tidy. reflexivity.
  - intro k. apply pydict_of_lookup.
  - intros ->. vm_compute in Hitems. injection Hitems as <-.
    vm_compute in Hentries. injection Hentries as <-. reflexivity.
Qed.

(** The run of the reader on a body that is not valid JSON. *)
Lemma reader_exit_run :
  json_loads (text resp) = None ->
  reader w =
    (Exit,
     {| server := s1;
        trace := trace w ++
          [announce; EvRequest fetch; EvPrint (lit "FMR instance not accessible!")] |}).
Proof.
  intro Hjson.
  unfold get_ref_area_codelist. steps.
  erewrite run_try_caught; cycle 1.
  { send_ok fetch_response. unfold response_json, lift. rewrite Hjson. reflexivity. }
  { reflexivity. }
  steps. tidy. reflexivity.
Qed.

End Reader.

(** C9: when the body of the codelist response is not valid JSON the
    reader prints that the registry is not accessible and leaves the
    process, neither returning nor raising; no other function of the
    module ever leaves the process. *)
Theorem reader_exits (json_loads : str -> option json) (ServerState : Type)
    (handle : ServerState -> request -> option Response * ServerState)
    (api_params : ApiParams) :
  (forall (w : world ServerState) resp s1,
     handle (server w) (Get (ref_area_url api_params) []) = (Some resp, s1) ->
     json_loads (text resp) = None ->
     get_ref_area_codelist json_loads handle api_params w =
       (Exit,
        {| server := s1;
           trace := trace w ++
             [EvLog (lit ">>>>> Getting values for the codelist %s...")
                    [JStr (codelist_endpoint_ref_area api_params)];
              EvRequest (Get (ref_area_url api_params) []);
              EvPrint (lit "FMR instance not accessible!")] |}))
  /\ (forall u p, no_exit (fmr_auth api_params u p))
  /\ (forall credentials codelist_id item_id item_description agency action,
        never_exits (add_single_item_to_codelist json_loads handle credentials
                       api_params codelist_id item_id item_description agency action))
  /\ (forall credentials codelist_id item_list agency action,
        never_exits (add_items_to_codelist json_loads handle credentials
                       api_params codelist_id item_list agency action))
  /\ (forall read_file credentials filepath delimiter,
        never_exits (validate_single_dataset_fmr json_loads handle read_file
                       credentials api_params filepath delimiter))
  /\ (forall read_file credentials abspath_cwd datasets folder_name boolean delimiter,
        never_exits (validate_datasets_fmr json_loads handle read_file credentials
                       abspath_cwd api_params datasets folder_name boolean delimiter)).
Proof.
  split.
  - intros w resp s1 Hfetch Hjson. exact (reader_exit_run json_loads handle api_params w Hfetch Hjson).
  - repeat split; intros.
    + apply no_exit_fmr_auth.
    + apply ne_add_single.
    + apply ne_add_items.
    + apply ne_validate_single.
    + apply ne_validate_datasets.
Qed.

(** ** Authentication *)

Lemma encodable_app (a b : str) :
  encodable a = true -> encodable b = true -> encodable (a ++ b) = true.
Proof. unfold encodable. intros Ha Hb. rewrite forallb_app, Ha, Hb. reflexivity. Qed.

(** C10, as the code has it: for a user and a password without
    surrogate code points, [fmr_auth] returns exactly an [Authorization]
    entry that decodes, after ["Basic "], to ["{user}:{password}"], and
    a [Content-Type] entry ["application/json"]. *)
Theorem fmr_auth_decodes (api_params : ApiParams) (user password : str) :
  encodable user = true ->
  encodable password = true ->
  exists token,
    fmr_auth api_params user password =
      Return [(lit "Authorization", token);
              (lit "Content-Type", lit "application/json")]
    /\ Spec.decode_basic token = Some (user ++ lit ":" ++ password).
Proof.
  intros Hu Hp.
  assert (He : encodable (user ++ lit ":" ++ password) = true)
    by (apply encodable_app; [exact Hu|apply encodable_app; [reflexivity|exact Hp]]).
  destruct (CodecFacts.utf8_roundtrip _ He) as (b & Eenc & Hoct & Edec).
  exists (lit "Basic " ++ Codec.b64encode b). split.
  - unfold fmr_auth. rewrite Eenc. cbn [obind].
    rewrite (CodecFacts.b64encode_ascii Hoct). reflexivity.
  - unfold Spec.decode_basic. rewrite strip_prefix_app.
    rewrite (CodecFacts.b64_roundtrip Hoct). exact Edec.
Qed.

(** C10, as stated, fails on a string that holds a lone surrogate:
    the utf-8 codec refuses it and no header mapping is returned. *)
Lemma fmr_auth_lone_surrogate :
  fmr_auth Mock.api [55296%N] (lit "password") = Raise UnicodeEncodeError
  /\ forall h, fmr_auth Mock.api [55296%N] (lit "password") <> Return h.
Proof. split; [reflexivity|]. intros h H. vm_compute in H. discriminate. Qed.

(** ** The theorems at concrete runs *)

Module Runs.

Import Mock.

Local Abbreviation validate_mock s :=
  (validate_single_dataset_fmr (decoder table) scripted files creds api
     (lit "data.csv") (lit "comma") (start s)).

Local Abbreviation add_mock id descr s :=
  (add_single_item_to_codelist (decoder table) scripted creds api
     (lit "CL_REF_AREA") id descr (lit "WB") (lit "MERGE") (start s)).

Lemma status_with_errors_key_witness :
  fst (validate_mock [ok load_body; ok status_ok_body]) = Return (true, JDict [])
  /\ fst (validate_mock [ok load_body; ok status_bad_body])
     = Return (false,
               JDict [(lit "ValidationReport", JList [JList [JStr (lit "bad row")]])]).
Proof.
  split.
  - edestruct (status_with_errors_key (decoder table) scripted files creds api
                 (lit "data.csv") (lit "comma")
                 (start [ok load_body; ok status_ok_body])) as [H _];
      [reflexivity .. | apply H; reflexivity].
  - edestruct (status_with_errors_key (decoder table) scripted files creds api
                 (lit "data.csv") (lit "comma")
                 (start [ok load_body; ok status_bad_body])) as [_ H];
      [reflexivity .. | apply H; reflexivity].
Defined.

Lemma load_not_200_witness :
  fst (validate_mock [server_error])
  = Return (false, JDict [(lit "ValidationReport", JStr (lit "Error with load endpoint"))])
  /\ filter is_get (trace (snd (validate_mock [server_error]))) = [].
Proof.
  edestruct (load_not_200 (decoder table) scripted files creds api
               (lit "data.csv") (lit "comma") (start [server_error])) as [H1 H2];
    [reflexivity .. | | split; [rewrite H1; reflexivity | exact H2]].
  cbn. discriminate.
Defined.

Lemma status_without_keys_witness :
  fst (validate_mock [ok load_body; ok status_odd_body])
  = Raise (UnboundLocalError (lit "validated_bool")).
Proof.
  edestruct (status_without_keys (decoder table) scripted files creds api
               (lit "data.csv") (lit "comma")
               (start [ok load_body; ok status_odd_body])) as [H _];
    [reflexivity .. | exact H].
Defined.

Lemma existing_item_no_post_witness :
  filter is_post (trace (snd (add_mock (lit "INX") (lit "Not classified")
                                [ok codelist_body]))) = [].
Proof.
  edestruct (existing_item_no_post (decoder table) scripted creds api
               (lit "CL_REF_AREA") (lit "INX") (lit "Not classified")
               (lit "WB") (lit "MERGE"))
    with (w := start [ok codelist_body]) as (_ & H & _);
    [reflexivity .. | exact H].
Defined.

Lemma new_item_post_witness :
  exists rest,
    trace (snd (add_mock (lit "AAA") (lit "First") [ok codelist_body; ok (lit "Success")]))
    = [EvRequest (Get (codelist_url api (lit "WB") (lit "CL_REF_AREA")) []);
       EvRequest (Post (url api ++ items_add_item_endpoint api)
                       (auth ++ [(lit "ACTION", lit "MERGE")])
                       (JsonBody codelist_doc_with_a))] ++ rest
    /\ filter is_post rest = [].
Proof.
  edestruct (new_item_post (decoder table) scripted creds api
               (lit "CL_REF_AREA") (lit "AAA") (lit "First") (lit "WB") (lit "MERGE"))
    with (w := start [ok codelist_body; ok (lit "Success")])
    as (body & Hbody & rest & Htrace & Hrest);
    [reflexivity .. | ].
  injection Hbody as <-. exists rest. split; [exact Htrace | exact Hrest].
Defined.

Lemma fetch_not_json_witness :
  exists e w',
    add_mock (lit "AAA") (lit "First") [ok blocked_body; ok blocked_body] = (Raise e, w')
    /\ filter is_log (trace w') = [].
Proof.
  edestruct (fetch_not_json (decoder table) scripted creds api
               (lit "CL_REF_AREA") (lit "AAA") (lit "First") (lit "WB") (lit "MERGE"))
    with (w := start [ok blocked_body; ok blocked_body])
    as (e & w' & Hrun & _ & Hlog & _);
    [reflexivity .. | ].
  exists e, w'. split; [exact Hrun | exact Hlog].
Defined.

Lemma batch_stops_at_failure_witness :
  exists e w',
    add_items_to_codelist (decoder table) scripted creds api (lit "CL_REF_AREA")
      [item_a; item_b] (lit "WB") (lit "MERGE")
      (start [ok blocked_body; ok blocked_body; ok codelist_body]) = (Raise e, w')
    /\ List.length (filter is_get (trace w')) = 2%nat.
Proof.
  edestruct (batch_stops_at_failure (decoder table) scripted creds api
               (lit "CL_REF_AREA") (item_id := lit "AAA")
               (item_description := lit "First") (lit "WB") (lit "MERGE"))
    with (w := start [ok blocked_body; ok blocked_body; ok codelist_body])
         (it := item_a) (others := [item_b])
    as (e & w' & Hrun & Htrace);
    [reflexivity .. | ].
  exists e, w'. split; [exact Hrun | rewrite Htrace; reflexivity].
Defined.

(** A batch of one item that the codelist holds, on a registry that
    always serves that codelist. *)
Lemma batch_of_present_items_run :
  exists s',
    add_items_to_codelist (decoder table)
      (always {| status_code := 200; text := codelist_body |}) creds api
      (lit "CL_REF_AREA") [[(lit "id", lit "INX"); (lit "description", lit "Not classified")]]
      (lit "WB") (lit "MERGE") {| server := tt; trace := [] |} =
    (Return true,
     {| server := s';
        trace :=
          [EvLog (lit ">>>>> Adding items to codelist %s...") [JStr (lit "CL_REF_AREA")];
           EvLog (lit ">>>>>>> Item: %s") [JStr (lit "INX")];
           EvRequest (Get (codelist_url api (lit "WB") (lit "CL_REF_AREA")) []);
           EvLog (lit ">>>>>>>>> ID already exists in codelist...") []] |}).
Proof.
  apply (batch_of_present_items (decoder table)
           (always {| status_code := 200; text := codelist_body |}) creds api
           (lit "CL_REF_AREA") (lit "WB") (lit "MERGE") (auth_headers := auth) eq_refl
           (fields := [(lit "INX", lit "Not classified")])).
  - repeat constructor.
  - intros []. exists {| status_code := 200; text := codelist_body |}, tt,
      codelist_doc, [JStr (lit "INX")].
    repeat split. intros f [<-|[]]. reflexivity.
Defined.

Lemma reader_mapping_witness :
  fst (get_ref_area_codelist (decoder table) scripted api (start [ok codelist_body]))
  = Return [(JStr (lit "Not classified"), JStr (lit "INX"))].
Proof.
  edestruct (reader_mapping (decoder table) scripted api (start [ok codelist_body]))
    as (r & Hrun & _ & Hexample);
    [reflexivity .. | ].
  rewrite Hrun. cbn [fst]. now rewrite Hexample.
Defined.

Lemma reader_exits_witness :
  fst (get_ref_area_codelist (decoder table) scripted api (start [ok blocked_body]))
  = Exit.
Proof.
  destruct (reader_exits (decoder table) scripted api) as [H _].
  erewrite H; reflexivity.
Defined.

Lemma fmr_auth_decodes_witness :
  exists token,
    fmr_auth api (lit "root") (lit "password") =
      Return [(lit "Authorization", token);
              (lit "Content-Type", lit "application/json")]
    /\ Spec.decode_basic token = Some (lit "root:password").
Proof. apply (fmr_auth_decodes api (lit "root") (lit "password")); reflexivity. Defined.

End Runs.

(** * Further properties *)

(** ** Results of a computation, and what it adds to the trace *)

Section Logic.

Variable json_loads : str -> option json.
Variable ServerState : Type.
Variable handle : ServerState -> request -> option Response * ServerState.
Variable read_file : str -> option bytes.

Local Abbreviation M' := (M ServerState).

Lemma ensures_ret {A} (a : A) (P : A -> Prop) : P a -> ensures (ret a : M' A) P.
Proof. intros H w a' w' E. injection E as <- _. exact H. Qed.

Lemma ensures_bind {A B} (c : M' A) (k : A -> M' B) (P : B -> Prop) :
  (forall a, ensures (k a) P) -> ensures (bind c k) P.
Proof.
  intros Hk w b w' E. unfold bind in E.
  destruct (c w) as [[a|e|] w1]; try discriminate. exact (Hk a w1 b w' E).
Qed.

Lemma ensures_bind_with {A B} (c : M' A) (k : A -> M' B) (Q : A -> Prop)
    (P : B -> Prop) :
  ensures c Q -> (forall a, Q a -> ensures (k a) P) -> ensures (bind c k) P.
Proof.
  intros Hc Hk w b w' E. unfold bind in E.
  destruct (c w) as [[a|e|] w1] eqn:Ec; try discriminate.
  exact (Hk a (Hc w a w1 Ec) w1 b w' E).
Qed.

Lemma ensures_try {A} (body handler : M' A) (catches : exn -> bool) (P : A -> Prop) :
  ensures body P -> ensures handler P -> ensures (try_except body catches handler) P.
Proof.
  intros Hb Hh w a w' E. unfold try_except in E.
  destruct (body w) as [[a1|e|] w1] eqn:Eb.
  - injection E as <- <-. exact (Hb w a1 w1 Eb).
  - destruct (catches e); [exact (Hh w1 a w' E)|discriminate].
  - discriminate.
Qed.

Lemma ensures_raise {A} (e : exn) (P : A -> Prop) : ensures (lift (Raise e) : M' A) P.
Proof. intros w a w' E. discriminate. Qed.

Lemma count_app (p : event -> bool) (a b : list event) :
  count p (a ++ b) = count p a + count p b.
Proof. unfold count. now rewrite filter_app, length_app. Qed.

Lemma at_most_weaken {A} (p : event -> bool) (n m : nat) (c : M' A) :
  at_most p n c -> n <= m -> at_most p m c.
Proof. intros H Hnm w. specialize (H w). lia. Qed.

Lemma at_most_ret {A} (p : event -> bool) (a : A) : at_most p 0 (ret a : M' A).
Proof. intro w. cbn. lia. Qed.

Lemma at_most_lift {A} (p : event -> bool) (o : outcome A) : at_most p 0 (lift o : M' A).
Proof. intro w. cbn. lia. Qed.

Lemma at_most_emit (p : event -> bool) (e : event) :
  at_most p (if p e then 1 else 0) (emit e : M' unit).
Proof.
  intro w. cbn [emit snd trace]. rewrite count_app. unfold count at 2. cbn.
  destruct (p e); cbn; lia.
Qed.

Lemma at_most_log (p : event -> bool) (fmt : string) (args : list json) :
  at_most p (if p (EvLog (lit fmt) args) then 1 else 0) (logger_info fmt args : M' unit).
Proof. apply at_most_emit. Qed.

Lemma at_most_send (p : event -> bool) (r : request) :
  at_most p (if p (EvRequest r) then 1 else 0) (send handle r).
Proof.
  intro w. unfold send. destruct (handle (server w) r) as [[resp|] s'];
    cbn [snd trace]; rewrite count_app; unfold count at 2; cbn;
    destruct (p (EvRequest r)); cbn; lia.
Qed.

Lemma at_most_send_1 (p : event -> bool) (r : request) : at_most p 1 (send handle r).
Proof. apply (at_most_weaken (at_most_send p r)). destruct (p (EvRequest r)); lia. Qed.

Lemma at_most_send_0 (p : event -> bool) (r : request) :
  p (EvRequest r) = false -> at_most p 0 (send handle r).
Proof. intro H. pose proof (at_most_send p r) as B. now rewrite H in B. Qed.

Lemma at_most_emit_0 (p : event -> bool) (e : event) :
  p e = false -> at_most p 0 (emit e : M' unit).
Proof. intro H. pose proof (at_most_emit p e) as B. now rewrite H in B. Qed.

Lemma at_most_log_0 (p : event -> bool) (fmt : string) (args : list json) :
  p (EvLog (lit fmt) args) = false -> at_most p 0 (logger_info fmt args : M' unit).
Proof. apply at_most_emit_0. Qed.

Lemma at_most_json (p : event -> bool) (r : Response) :
  at_most p 0 (response_json json_loads r : M' json).
Proof. apply at_most_lift. Qed.

Lemma at_most_bind {A B} (p : event -> bool) (n m : nat) (c : M' A) (k : A -> M' B) :
  at_most p n c -> (forall a, at_most p m (k a)) -> at_most p (n + m) (bind c k).
Proof.
  intros Hc Hk w. unfold bind. specialize (Hc w).
  destruct (c w) as [[a|e|] w1]; cbn [snd] in *; try lia.
  specialize (Hk a w1). lia.
Qed.

Lemma at_most_open (p : event -> bool) (path : str) :
  at_most p (if p (EvOpen path) then 1 else 0) (open_rb read_file path : M' bytes).
Proof.
  unfold open_rb. eapply at_most_weaken.
  - apply at_most_bind; [apply at_most_emit|]. intros _. apply at_most_lift.
  - lia.
Qed.

Lemma at_most_open_0 (p : event -> bool) (path : str) :
  p (EvOpen path) = false -> at_most p 0 (open_rb read_file path : M' bytes).
Proof. intro H. pose proof (at_most_open p path) as B. now rewrite H in B. Qed.

Lemma at_most_try {A} (p : event -> bool) (n m : nat) (body handler : M' A)
    (catches : exn -> bool) :
  at_most p n body -> at_most p m handler ->
  at_most p (n + m) (try_except body catches handler).
Proof.
  intros Hb Hh w. unfold try_except. specialize (Hb w).
  destruct (body w) as [[a|e|] w1]; cbn [snd] in *; try lia.
  destruct (catches e); cbn [snd]; [|lia]. specialize (Hh w1). lia.
Qed.

Lemma at_most_if {A} (p : event -> bool) (n m : nat) (b : bool) (c1 c2 : M' A) :
  at_most p n c1 -> at_most p m c2 -> at_most p (Nat.max n m) (if b then c1 else c2).
Proof.
  intros H1 H2. destruct b; [apply (at_most_weaken H1)|apply (at_most_weaken H2)]; lia.
Qed.

Lemma at_most_foreach {A} (p : event -> bool) (n : nat) (f : A -> M' unit) (l : list A) :
  (forall a, at_most p n (f a)) -> at_most p (List.length l * n) (foreach f l).
Proof.
  intro Hf. induction l as [|a l IH]; cbn [foreach List.length Nat.mul].
  - apply at_most_ret.
  - apply at_most_bind; [apply Hf|]. intros _. exact IH.
Qed.

End Logic.

Ltac results :=
  repeat first
    [ apply ensures_ret | apply ensures_raise
    | apply ensures_bind; intro
    | apply ensures_try
    | match goal with
      | |- ensures (if ?b then _ else _) _ => destruct b
      end ].

Ltac budget :=
  repeat first
    [ apply at_most_ret | apply at_most_lift | apply at_most_json
    | apply at_most_log_0; reflexivity
    | apply at_most_emit_0; reflexivity
    | apply at_most_open_0; reflexivity
    | apply at_most_send_0; reflexivity
    | apply at_most_send_1
    | apply at_most_bind; [|intro]
    | apply at_most_try
    | apply at_most_if
    | match goal with
      | |- at_most _ _ (match ?x with _ => _ end) => destruct x
      end ].

(** ** The dataset validator: other paths *)

Section ValidatorPaths.

Variable json_loads : str -> option json.
Variable ServerState : Type.
Variable handle : ServerState -> request -> option Response * ServerState.
Variable read_file : str -> option bytes.
Variable credentials : Credentials.

Variables (api_params : ApiParams) (filepath delimiter : str).

Local Abbreviation validate :=
  (validate_single_dataset_fmr json_loads handle read_file credentials
     api_params filepath delimiter).

Lemma validate_shape : ensures validate result_shape.
Proof.
  unfold validate_single_dataset_fmr.
  do 4 (apply ensures_bind; intro).
  apply ensures_bind_with
    with (Q := fun locals => forall r, locals = Some r -> result_shape r).
  - results; intros r E; try discriminate; injection E as <-;
      unfold result_shape, validation_report; eauto.
  - intros [r|] H; [apply ensures_ret; now apply H | apply ensures_raise].
Qed.

(** Whatever the registry answers, a returned result is [(True, {})] or
    [(False, {"ValidationReport": v})]. *)
Theorem validate_result_shape : ensures validate result_shape.
Proof. exact validate_shape. Qed.

Lemma validate_budget (p : event -> bool) :
  p = is_post \/ p = is_get -> at_most p 1 validate.
Proof.
  intros [-> | ->]; unfold validate_single_dataset_fmr;
    (eapply at_most_weaken; [budget | cbn; lia]).
Qed.

(** A run sends at most one POST and at most one GET. *)
Theorem validate_request_budget :
  at_most is_post 1 validate /\ at_most is_get 1 validate.
Proof. split; apply validate_budget; auto. Qed.

Variable w : world ServerState.
Variable auth_headers : headers.
Hypothesis auth_ok :
  fmr_auth api_params (user credentials) (password credentials) = Return auth_headers.

(** A file that cannot be opened: the exception of [open] is raised
    and nothing is sent.  It is [OSError] for a path that can be encoded
    and holds no NUL, [UnicodeEncodeError] for a path that cannot be
    encoded, [ValueError] for a path that can be encoded and holds a
    NUL. *)
Theorem validate_missing_file :
  read_file filepath = None ->
  validate_single_dataset_fmr json_loads handle read_file credentials
    api_params filepath delimiter w =
    (Raise (open_failure filepath),
     {| server := server w; trace := trace w ++ [EvOpen filepath] |})
  /\ (fs_encodable filepath = true -> has_nul filepath = false ->
      open_failure filepath = OSError)
  /\ (fs_encodable filepath = false -> open_failure filepath = UnicodeEncodeError)
  /\ (fs_encodable filepath = true -> has_nul filepath = true ->
      open_failure filepath = ValueError).
Proof.
  intro Hfile. split.
  - unfold validate_single_dataset_fmr.
    lift_ok auth_ok. rewrite run_open_fail by exact Hfile. reflexivity.
  - unfold open_failure. repeat split.
    + intros -> ->. reflexivity.
    + intros ->. reflexivity.
    + intros -> ->. reflexivity.
Qed.

Variables (content : bytes) (val_req : Response) (s1 : ServerState).
Hypothesis file_ok : read_file filepath = Some content.
Hypothesis load_response :
  handle (server w) (load_request api_params content delimiter) = (Some val_req, s1).
Hypothesis load_200 : status_code val_req = 200%Z.

Local Abbreviation upload :=
  [EvOpen filepath; EvRequest (load_request api_params content delimiter); EvSleep 5].

Lemma load_200_test : (status_code val_req =? 200)%Z = true.
Proof. rewrite load_200. reflexivity. Qed.

(** An HTTP 200 load response whose body is not JSON: the fixed failure
    pair, and the status request is never sent. *)
Theorem validate_load_body_not_json :
  json_loads (text val_req) = None ->
  validate w =
    (Return (false, JDict [(lit "ValidationReport",
                            JStr (lit "Cannot connect to FMR instance"))]),
     {| server := s1;
        trace := trace w ++ upload ++
          [EvLog (lit ">>>>>>>>> Cannot connect to FMR instance!!") []] |}).
Proof.
  intro Hjson. unfold validate_single_dataset_fmr.
  lift_ok auth_ok. open_ok file_ok. send_ok load_response.
  rewrite load_200_test. steps.
  erewrite run_try_caught; cycle 1.
  { rewrite run_json_fail by exact Hjson. reflexivity. }
  { reflexivity. }
  steps. tidy. reflexivity.
Qed.

(** A JSON load body without the key ['uid']: [KeyError], uncaught, and
    the status request is never sent. *)
Theorem validate_load_body_without_uid (load_doc : list (str * json)) :
  json_loads (text val_req) = Some (JDict load_doc) ->
  dict_get (lit "uid") load_doc = None ->
  validate w =
    (Raise (KeyError (JStr (lit "uid"))),
     {| server := s1; trace := trace w ++ upload |}).
Proof.
  intros Hjson Huid. unfold validate_single_dataset_fmr.
  lift_ok auth_ok. open_ok file_ok. send_ok load_response.
  rewrite load_200_test. steps.
  erewrite run_try_uncaught; cycle 1.
  { json_ok Hjson.
    rewrite run_lift_raise with (e := KeyError (JStr (lit "uid")))
      by (unfold getitem; now rewrite Huid).
    reflexivity. }
  { reflexivity. }
  tidy. reflexivity.
Qed.

Variables (load_doc : list (str * json)) (uid : json)
          (r : Response) (s2 : ServerState).
Hypothesis load_json : json_loads (text val_req) = Some (JDict load_doc).
Hypothesis load_uid : dict_get (lit "uid") load_doc = Some uid.
Hypothesis status_response :
  handle s1 (load_status_request api_params uid) = (Some r, s2).

Local Abbreviation poll := (EvRequest (load_status_request api_params uid)).

Lemma uid_value : getitem (JDict load_doc) (lit "uid") = Return uid.
Proof. unfold getitem. now rewrite load_uid. Qed.

(** A status response whose body is not JSON: the same failure pair,
    after the one status request. *)
Theorem validate_status_body_not_json :
  json_loads (text r) = None ->
  validate w =
    (Return (false, JDict [(lit "ValidationReport",
                            JStr (lit "Cannot connect to FMR instance"))]),
     {| server := s2;
        trace := trace w ++ upload ++
          [poll; EvLog (lit ">>>>>>>>> Cannot connect to FMR instance!!") []] |}).
Proof.
  intro Hjson. unfold validate_single_dataset_fmr.
  lift_ok auth_ok. open_ok file_ok. send_ok load_response.
  rewrite load_200_test. steps.
  erewrite run_try_caught; cycle 1.
  { json_ok load_json. lift_ok uid_value. send_ok status_response.
    rewrite run_json_fail by exact Hjson. reflexivity. }
  { reflexivity. }
  steps. tidy. reflexivity.
Qed.

(** A status body that is JSON but not an object (a list, a string,
    ...): [.keys()] raises [AttributeError], uncaught. *)
Theorem validate_status_not_an_object (status : json) :
  json_loads (text r) = Some status ->
  (forall d, status <> JDict d) ->
  fst (validate w) = Raise (AttributeError (lit "keys")).
Proof.
  intros Hjson Hshape. unfold validate_single_dataset_fmr.
  lift_ok auth_ok. open_ok file_ok. send_ok load_response.
  rewrite load_200_test. steps.
  erewrite run_try_uncaught; cycle 1.
  { json_ok load_json. lift_ok uid_value. send_ok status_response.
    json_ok Hjson.
    rewrite run_lift_raise with (e := AttributeError (lit "keys")); [reflexivity|].
    destruct status; try reflexivity. now destruct (Hshape d). }
  { reflexivity. }
  reflexivity.
Qed.

Variable status : list (str * json).
Hypothesis status_json : json_loads (text r) = Some (JDict status).

Lemma status_key_list : keys (JDict status) = Return (dict_keys status).
Proof. reflexivity. Qed.

(** A status object with the key ['Error'] and without ['Errors']: the
    session timed out. *)
Theorem validate_session_timed_out (e : json) :
  dict_get (lit "Errors") status = None ->
  dict_get (lit "Error") status = Some e ->
  validate w =
    (Return (false, JDict [(lit "ValidationReport", JStr (lit "Session timed out"))]),
     {| server := s2;
        trace := trace w ++ upload ++
          [poll; EvLog (lit ">>>>>>>>> Session timed out : %s") [e]] |}).
Proof.
  intros HErrors HError. unfold validate_single_dataset_fmr.
  lift_ok auth_ok. open_ok file_ok. send_ok load_response.
  rewrite load_200_test. steps.
  erewrite run_try_return; cycle 1.
  { json_ok load_json. lift_ok uid_value. send_ok status_response.
    json_ok status_json. lift_ok status_key_list.
    rewrite (key_in_dict_get (lit "Errors") status), HErrors. steps.
    lift_ok status_key_list.
    rewrite (key_in_dict_get (lit "Error") status), HError. steps.
    rewrite run_lift with (a := e) by (unfold getitem; now rewrite HError).
    steps. reflexivity. }
  tidy. reflexivity.
Qed.

(** Truthy ['Errors'] in a status without ['Datasets']: the line that
    announces the report is logged, then [KeyError], uncaught. *)
Theorem validate_errors_without_datasets (errs : json) :
  dict_get (lit "Errors") status = Some errs ->
  truthy errs = true ->
  dict_get (lit "Datasets") status = None ->
  validate w =
    (Raise (KeyError (JStr (lit "Datasets"))),
     {| server := s2;
        trace := trace w ++ upload ++
          [poll;
           EvLog (lit ">>>>>>>>> Validation finished with Errors! JSON report will be exported to working repository") []] |}).
Proof.
  intros HErrors Htruthy HDatasets. unfold validate_single_dataset_fmr.
  lift_ok auth_ok. open_ok file_ok. send_ok load_response.
  rewrite load_200_test. steps.
  erewrite run_try_uncaught; cycle 1.
  { json_ok load_json. lift_ok uid_value. send_ok status_response.
    json_ok status_json. lift_ok status_key_list.
    rewrite (key_in_dict_get (lit "Errors") status), HErrors. steps.
    rewrite run_lift with (a := errs) by (unfold getitem; now rewrite HErrors).
    rewrite Htruthy. steps.
    rewrite run_lift_raise with (e := KeyError (JStr (lit "Datasets")))
      by (unfold getitem; now rewrite HDatasets).
    reflexivity. }
  { reflexivity. }
  tidy. reflexivity.
Qed.

(** Truthy ['Errors'] and a dataset whose ['ValidationReport'] is an
    empty list: [IndexError], uncaught, whatever the datasets after
    it. *)
Theorem validate_empty_validation_report (errs : json)
    (good : list json) (reports : list json) (dx : list (str * json))
    (others : list json) :
  dict_get (lit "Errors") status = Some errs ->
  truthy errs = true ->
  dict_get (lit "Datasets") status = Some (JList (good ++ JDict dx :: others)) ->
  Spec.all_some (map Spec.dataset_report good) = Some reports ->
  dict_get (lit "ValidationReport") dx = Some (JList []) ->
  fst (validate w) = Raise IndexError.
Proof.
  intros HErrors Htruthy HDatasets Hgood Hdx.
  assert (Hloop : omap dataset_errors (good ++ JDict dx :: others) = Raise IndexError).
  { clear - Hgood Hdx. revert reports Hgood.
    induction good as [|g good IH]; cbn [map Spec.all_some app omap]; intros reports H.
    - unfold dataset_errors at 1, getitem. rewrite Hdx. reflexivity.
    - destruct (Spec.dataset_report g) as [e|] eqn:Eg; [|discriminate].
      destruct (Spec.all_some (map Spec.dataset_report good)) as [rs|]; [|discriminate].
      rewrite (dataset_errors_report g Eg). cbn [obind].
      rewrite (IH rs eq_refl). reflexivity. }
  unfold validate_single_dataset_fmr.
  lift_ok auth_ok. open_ok file_ok. send_ok load_response.
  rewrite load_200_test. steps.
  erewrite run_try_uncaught; cycle 1.
  { json_ok load_json. lift_ok uid_value. send_ok status_response.
    json_ok status_json. lift_ok status_key_list.
    rewrite (key_in_dict_get (lit "Errors") status), HErrors. steps.
    rewrite run_lift with (a := errs) by (unfold getitem; now rewrite HErrors).
    rewrite Htruthy. steps.
    rewrite run_lift with (a := JList (good ++ JDict dx :: others))
      by (unfold getitem; now rewrite HDatasets).
    rewrite run_lift with (a := good ++ JDict dx :: others) by reflexivity.
    rewrite run_lift_raise with (e := IndexError) by exact Hloop.
    reflexivity. }
  { reflexivity. }
  reflexivity.
Qed.

End ValidatorPaths.

(** ** Dicts with string keys *)

Lemma dict_get_set_same {V} (k : str) (v : V) (d : list (str * V)) :
  dict_get k (dict_set k v d) = Some v.
Proof.
  induction d as [|[k' v'] d IH]; cbn [dict_set dict_get].
  - now rewrite str_eqb_refl.
  - destruct (str_eqb k k') eqn:E; cbn [dict_get]; rewrite E; [reflexivity|exact IH].
Qed.

Lemma dict_get_set_other {V} (k k' : str) (v : V) (d : list (str * V)) :
  str_eqb k' k = false -> dict_get k' (dict_set k v d) = dict_get k' d.
Proof.
  intro Hne. induction d as [|[k1 v1] d IH]; cbn [dict_set dict_get].
  - now rewrite Hne.
  - destruct (str_eqb k k1) eqn:E; cbn [dict_get].
    + apply str_eqb_eq in E. subst k1. now rewrite Hne.
    + destruct (str_eqb k' k1); [reflexivity|exact IH].
Qed.

Lemma dict_keys_set {V W} (k : str) (v : V) (x : W)
    (d : list (str * V)) (e : list (str * W)) :
  dict_keys d = dict_keys e -> dict_keys (dict_set k v d) = dict_keys (dict_set k x e).
Proof.
  revert e. induction d as [|[k1 v1] d IH]; intros [|[k2 x2] e] H;
    cbn in H; try discriminate; [reflexivity|].
  injection H as <- H. cbn [dict_set].
  destruct (str_eqb k k1); cbn; f_equal; [exact H|].
  exact (IH e H).
Qed.

Lemma dict_keys_set_new {V} (k : str) (v : V) (d : list (str * V)) :
  dict_get k d = None -> dict_keys (dict_set k v d) = dict_keys d ++ [k].
Proof.
  induction d as [|[k1 v1] d IH]; cbn [dict_set dict_get]; [reflexivity|].
  destruct (str_eqb k k1); [discriminate|]. intro H. cbn. f_equal. exact (IH H).
Qed.

(** ** The codelist writer: other paths *)

(** After the assignment of line 111 the document lists the new item
    and nothing else, and its other top-level entries are untouched. *)
Theorem replace_items_read_back (req payload body : json) :
  replace_items req payload = Return body ->
  codelist_items body = Return [payload]
  /\ forall k, str_eqb k (lit "Codelist") = false -> getitem body k = getitem req k.
Proof.
  unfold replace_items, getitem at 1.
  destruct req as [| | | | |d]; try discriminate.
  destruct (dict_get (lit "Codelist") d) as [cl|] eqn:Ecl; [|discriminate].
  cbn [obind].
  destruct cl as [| | |s|l|dc]; try discriminate.
  - unfold getitem_int. destruct (seq_index s 0); discriminate.
  - unfold getitem_int, seq_index. cbn [Z.leb Z.compare Z.to_nat nth_error].
    destruct l as [|c0 rest]; [discriminate|]. cbn [nth_error obind].
    destruct c0 as [| | | | |d0]; try discriminate.
    cbn [setitem obind store store_int Z.leb Z.compare Z.to_nat list_store].
    intro H. injection H as <-. split.
    + unfold codelist_items, getitem. rewrite dict_get_set_same.
      cbn [obind getitem_int seq_index Z.leb Z.compare Z.to_nat nth_error].
      rewrite dict_get_set_same. reflexivity.
    + intros k Hk. unfold getitem. now rewrite dict_get_set_other.
Qed.

Section WriterPaths.

Variable json_loads : str -> option json.
Variable ServerState : Type.
Variable handle : ServerState -> request -> option Response * ServerState.
Variable read_file : str -> option bytes.
Variable credentials : Credentials.

Variables (api_params : ApiParams)
          (codelist_id item_id item_description agency action : str).

Local Abbreviation add_single :=
  (add_single_item_to_codelist json_loads handle credentials api_params
     codelist_id item_id item_description agency action).

Local Abbreviation fetch := (Get (codelist_url api_params agency codelist_id) []).

(** One call sends at most one POST and at most two GETs. *)
Theorem writer_request_budget :
  at_most is_post 1 add_single /\ at_most is_get 2 add_single.
Proof.
  split; unfold add_single_item_to_codelist, fetch_and_add, diagnose;
    (eapply at_most_weaken; [budget | cbn; lia]).
Qed.

(** Credentials that cannot be encoded: both functions that
    authenticate raise before anything is fetched, opened or sent. *)
Theorem authentication_failure_first (e : exn) (filepath delimiter : str)
    (w : world ServerState) :
  fmr_auth api_params (user credentials) (password credentials) = Raise e ->
  add_single w = (Raise e, w)
  /\ validate_single_dataset_fmr json_loads handle read_file credentials
       api_params filepath delimiter w = (Raise e, w).
Proof.
  intro H. split.
  - unfold add_single_item_to_codelist.
    now rewrite run_lift_raise with (e := e) by exact H.
  - unfold validate_single_dataset_fmr.
    now rewrite run_lift_raise with (e := e) by exact H.
Qed.

Variable w : world ServerState.
Variable auth_headers : headers.
Hypothesis auth_ok :
  fmr_auth api_params (user credentials) (password credentials) = Return auth_headers.

(** The registry cannot be reached: [RequestException], uncaught. *)
Theorem writer_transport_failure (s1 : ServerState) :
  handle (server w) fetch = (None, s1) ->
  add_single w =
    (Raise RequestException,
     {| server := s1; trace := trace w ++ [EvRequest fetch] |}).
Proof.
  intro Hfetch. unfold add_single_item_to_codelist. lift_ok auth_ok.
  erewrite run_try_uncaught; cycle 1.
  { unfold fetch_and_add. rewrite run_send_fail with (s' := s1) by exact Hfetch.
    reflexivity. }
  { reflexivity. }
  reflexivity.
Qed.

Variables (resp : Response) (s1 : ServerState).
Hypothesis fetch_response : handle (server w) fetch = (Some resp, s1).

(** A JSON object without ['Codelist'] (an error document, say):
    [KeyError], uncaught, and nothing is posted. *)
Theorem writer_document_without_codelist (d : list (str * json)) :
  json_loads (text resp) = Some (JDict d) ->
  dict_get (lit "Codelist") d = None ->
  add_single w =
    (Raise (KeyError (JStr (lit "Codelist"))),
     {| server := s1; trace := trace w ++ [EvRequest fetch] |}).
Proof.
  intros Hjson Hcl. unfold add_single_item_to_codelist. lift_ok auth_ok.
  erewrite run_try_uncaught; cycle 1.
  { unfold fetch_and_add. send_ok fetch_response. json_ok Hjson.
    rewrite run_lift_raise with (e := KeyError (JStr (lit "Codelist")));
      [reflexivity|].
    unfold existing_ids, codelist_items, getitem. now rewrite Hcl. }
  { reflexivity. }
  reflexivity.
Qed.

(** The codelist does not hold the item, and the POST is answered. *)
Variables (req : json) (ids : list json) (body : json)
          (response : Response) (s2 : ServerState).
Hypothesis fetch_json : json_loads (text resp) = Some req.
Hypothesis fetch_ids : existing_ids req = Return ids.
Hypothesis item_new : str_in_list item_id ids = false.
Hypothesis replaced :
  replace_items req (temp_payload item_id item_description) = Return body.

Local Abbreviation post :=
  (Post (add_item_url api_params)
        (dict_set (lit "ACTION") action auth_headers) (JsonBody body)).

Hypothesis post_response : handle s1 post = (Some response, s2).

Lemma fetch_and_add_to_post :
  fetch_and_add json_loads handle api_params codelist_id item_id
    item_description agency action auth_headers w =
  (if str_contains (lit "Success") (text response)
   then logger_info ">>>>>>>>> Added codes(s) successfully!" []
   else bind (response_json json_loads response)
          (fun j => logger_info ">>>>>>>>> %s" [j]))
    {| server := s2; trace := trace w ++ [EvRequest fetch; EvRequest post] |}.
Proof.
  unfold fetch_and_add. send_ok fetch_response. json_ok fetch_json.
  lift_ok fetch_ids. rewrite item_new. cbn [negb].
  lift_ok replaced. cbv zeta. send_ok post_response. tidy. reflexivity.
Qed.

(** The reply holds ["Success"]: one log line and [True]. *)
Theorem writer_post_accepted :
  str_contains (lit "Success") (text response) = true ->
  add_single w =
    (Return true,
     {| server := s2;
        trace := trace w ++
          [EvRequest fetch; EvRequest post;
           EvLog (lit ">>>>>>>>> Added codes(s) successfully!") []] |}).
Proof.
  intro Hs. unfold add_single_item_to_codelist. lift_ok auth_ok.
  erewrite run_try_return; cycle 1.
  { rewrite fetch_and_add_to_post, Hs. reflexivity. }
  tidy. reflexivity.
Qed.

(** The reply does not hold ["Success"] and is JSON: the decoded reply
    is logged, and the call still returns [True]. *)
Theorem writer_post_refused (j : json) :
  str_contains (lit "Success") (text response) = false ->
  json_loads (text response) = Some j ->
  add_single w =
    (Return true,
     {| server := s2;
        trace := trace w ++
          [EvRequest fetch; EvRequest post; EvLog (lit ">>>>>>>>> %s") [j]] |}).
Proof.
  intros Hs Hj. unfold add_single_item_to_codelist. lift_ok auth_ok.
  erewrite run_try_return; cycle 1.
  { rewrite fetch_and_add_to_post, Hs. json_ok Hj. reflexivity. }
  tidy. reflexivity.
Qed.

(** The reply does not hold ["Success"] and is not JSON: the [except]
    block of the fetch runs, sends the GET again, and the call raises. *)
Theorem writer_post_reply_not_json :
  str_contains (lit "Success") (text response) = false ->
  json_loads (text response) = None ->
  exists e s3,
    add_single w =
      (Raise e,
       {| server := s3;
          trace := trace w ++ [EvRequest fetch; EvRequest post; EvRequest fetch] |}).
Proof.
  intros Hs Hj.
  destruct (diagnose_raises json_loads handle api_params codelist_id agency
              {| server := s2; trace := trace w ++ [EvRequest fetch; EvRequest post] |})
    as (e & s3 & Ed & _).
  exists e, s3. unfold add_single_item_to_codelist. lift_ok auth_ok.
  erewrite run_try_caught; cycle 1.
  { rewrite fetch_and_add_to_post, Hs.
    rewrite run_json_fail by exact Hj. reflexivity. }
  { reflexivity. }
  unfold bind. rewrite Ed. tidy. reflexivity.
Qed.

End WriterPaths.

(** ** The batch writer: edges *)

Section BatchPaths.

Variable json_loads : str -> option json.
Variable ServerState : Type.
Variable handle : ServerState -> request -> option Response * ServerState.
Variable credentials : Credentials.

Variables (api_params : ApiParams) (codelist_id agency action : str).

Local Abbreviation add_items item_list :=
  (add_items_to_codelist json_loads handle credentials api_params codelist_id
     item_list agency action).

Local Abbreviation adding :=
  (EvLog (lit ">>>>> Adding items to codelist %s...") [JStr codelist_id]).

(** An empty list: one log line, no request, [True]. *)
Theorem batch_empty (w : world ServerState) :
  add_items [] w =
    (Return true, {| server := server w; trace := trace w ++ [adding] |}).
Proof. reflexivity. Qed.

(** A batch of [n] items sends at most [n] POSTs and at most [2 n]
    GETs. *)
Theorem batch_request_budget (item_list : list item) :
  at_most is_post (List.length item_list) (add_items item_list)
  /\ at_most is_get (2 * List.length item_list) (add_items item_list).
Proof.
  split; unfold add_items_to_codelist.
  - eapply at_most_weaken.
    + apply at_most_bind; [apply at_most_log_0; reflexivity|]. intros _.
      apply at_most_bind; [|intros _; apply at_most_ret].
      apply at_most_foreach with (n := 1). intro it.
      eapply at_most_weaken.
      * budget.
      * cbn. lia.
    + lia.
  - eapply at_most_weaken.
    + apply at_most_bind; [apply at_most_log_0; reflexivity|]. intros _.
      apply at_most_bind; [|intros _; apply at_most_ret].
      apply at_most_foreach with (n := 2). intro it.
      eapply at_most_weaken.
      * budget.
      * cbn. lia.
    + lia.
Qed.

(** An item without ['id']: [KeyError] before its log line and before
    any request; the items after it are not looked at. *)
Theorem batch_item_without_id (w : world ServerState) (it : item) (others : list item) :
  dict_get (lit "id") it = None ->
  add_items (it :: others) w =
    (Raise (KeyError (JStr (lit "id"))),
     {| server := server w; trace := trace w ++ [adding] |}).
Proof.
  intro Hid. unfold add_items_to_codelist. steps. cbn [foreach]. steps.
  rewrite run_lift_raise with (e := KeyError (JStr (lit "id")))
    by (unfold item_get; now rewrite Hid).
  reflexivity.
Qed.

(** An item with ['id'] and without ['description']: its line is
    logged, then [KeyError]; nothing is fetched for it. *)
Theorem batch_item_without_description (w : world ServerState) (it : item)
    (others : list item) (item_id : str) :
  dict_get (lit "id") it = Some item_id ->
  dict_get (lit "description") it = None ->
  add_items (it :: others) w =
    (Raise (KeyError (JStr (lit "description"))),
     {| server := server w;
        trace := trace w ++ [adding; EvLog (lit ">>>>>>> Item: %s") [JStr item_id]] |}).
Proof.
  intros Hid Hdescr.
  assert (Gid : item_get it (lit "id") = Return item_id)
    by (unfold item_get; now rewrite Hid).
  unfold add_items_to_codelist. steps. cbn [foreach].
  lift_ok Gid. lift_ok Gid.
  rewrite run_lift_raise with (e := KeyError (JStr (lit "description")))
    by (unfold item_get; now rewrite Hdescr).
  tidy. reflexivity.
Qed.

End BatchPaths.

(** ** The codelist reader: edges *)

Lemma ofold_invariant {A S} (f : S -> A -> outcome S) (I : S -> Prop) (l : list A) :
  (forall s a s', f s a = Return s' -> I s -> I s') ->
  forall s s', ofold f l s = Return s' -> I s -> I s'.
Proof.
  intro Hf. induction l as [|a l IH]; cbn [ofold]; intros s s' H Hs.
  - injection H as <-. exact Hs.
  - destruct (f s a) as [s1| |] eqn:E; try discriminate.
    exact (IH s1 s' H (Hf s a s1 E Hs)).
Qed.

Lemma ref_area_step_inserts (d d' : pydict) (it : json) :
  ref_area_step d it = Return d' ->
  exists k v, hashable k = true /\ d' = pydict_insert k v d.
Proof.
  unfold ref_area_step.
  destruct (getitem it (lit "id")) as [v| |]; try discriminate. cbn [obind].
  destruct (getitem it (lit "names")) as [names| |]; try discriminate. cbn [obind].
  destruct (getitem_int names 0) as [n0| |]; try discriminate. cbn [obind].
  destruct (getitem n0 (lit "value")) as [k| |]; try discriminate. cbn [obind].
  unfold pydict_setitem. destruct (hashable k) eqn:Hk; [|discriminate].
  intro H. injection H as <-. now exists k, v.
Qed.

Lemma key_eqb_false_sym (a b : json) : key_eqb a b = false -> key_eqb b a = false.
Proof.
  intro H. destruct (key_eqb b a) eqn:E; [|reflexivity].
  now rewrite (key_eqb_sym b a E) in H.
Qed.

Lemma pydict_insert_keys (a k v : json) (d : pydict) :
  existsb (fun e => key_eqb a (fst e)) (pydict_insert k v d) = true ->
  existsb (fun e => key_eqb a (fst e)) d = true \/ key_eqb a k = true.
Proof.
  induction d as [|[k1 v1] d IH]; cbn [pydict_insert existsb fst].
  - rewrite orb_false_r. now right.
  - destruct (key_eqb k k1); cbn [existsb fst]; intro H; [now left|].
    apply orb_prop in H as [H|H].
    + left. now rewrite H.
    + destruct (IH H) as [H'|H']; [left; rewrite H'; apply orb_true_r|now right].
Qed.

Lemma distinct_keys_insert (k v : json) (d : pydict) :
  hashable k = true -> distinct_keys d = true ->
  distinct_keys (pydict_insert k v d) = true.
Proof.
  intro Hk. induction d as [|[k1 v1] d IH]; cbn [pydict_insert distinct_keys existsb].
  - intros _. now rewrite Hk.
  - intro H. apply andb_prop in H as [H Hd]. apply andb_prop in H as [Hk1 Hnew].
    destruct (key_eqb k k1) eqn:E; cbn [distinct_keys].
    + now rewrite Hk1, Hnew, Hd.
    + rewrite Hk1, (IH Hd), andb_true_r. cbn [andb].
      apply negb_true_iff. apply negb_true_iff in Hnew.
      destruct (existsb (fun e => key_eqb k1 (fst e)) (pydict_insert k v d)) eqn:Ex;
        [|reflexivity].
      destruct (pydict_insert_keys k1 k v d Ex) as [H|H]; [congruence|].
      now rewrite (key_eqb_false_sym k k1 E) in H.
Qed.

Lemma pydict_insert_length (k v : json) (d : pydict) :
  List.length (pydict_insert k v d) <= S (List.length d).
Proof.
  induction d as [|[k1 v1] d IH]; cbn [pydict_insert List.length]; [lia|].
  destruct (key_eqb k k1); cbn [List.length]; lia.
Qed.

Lemma ref_area_loop_length (items : list json) :
  forall d d', ofold ref_area_step items d = Return d' ->
  List.length d' <= List.length d + List.length items.
Proof.
  induction items as [|it items IH]; cbn [ofold List.length]; intros d d' H.
  - injection H as <-. lia.
  - destruct (ref_area_step d it) as [d1| |] eqn:E; try discriminate.
    destruct (ref_area_step_inserts d it E) as (k & v & _ & ->).
    specialize (IH _ _ H). pose proof (pydict_insert_length k v d). lia.
Qed.

Section ReaderPaths.

Variable json_loads : str -> option json.
Variable ServerState : Type.
Variable handle : ServerState -> request -> option Response * ServerState.
Variable api_params : ApiParams.

Local Abbreviation reader := (get_ref_area_codelist json_loads handle api_params).
Local Abbreviation fetch := (Get (ref_area_url api_params) []).
Local Abbreviation announce :=
  (EvLog (lit ">>>>> Getting values for the codelist %s...")
         [JStr (codelist_endpoint_ref_area api_params)]).

(** The reader never posts, and sends at most one GET. *)
Theorem reader_request_budget :
  at_most is_post 0 reader /\ at_most is_get 1 reader.
Proof.
  split; unfold get_ref_area_codelist;
    (eapply at_most_weaken;
     [budget; first [apply at_most_emit_0; reflexivity | intro w; cbn; lia]
     | cbn; lia]).
Qed.

(** A returned mapping has hashable keys, no two of them equal. *)
Theorem reader_keys_distinct : ensures reader (fun r => distinct_keys r = true).
Proof.
  unfold get_ref_area_codelist. do 3 (apply ensures_bind; intro).
  intros w r w' H. unfold lift in H. injection H as H _.
  eapply ofold_invariant with (I := fun d => distinct_keys d = true);
    [ | exact H | reflexivity].
  intros s it s' E Hs.
  destruct (ref_area_step_inserts s it E) as (k & v & Hk & ->).
  now apply distinct_keys_insert.
Qed.

Variable w : world ServerState.

(** The registry cannot be reached: [RequestException], uncaught; the
    process is not left and nothing is printed. *)
Theorem reader_transport_failure (s1 : ServerState) :
  handle (server w) fetch = (None, s1) ->
  reader w =
    (Raise RequestException,
     {| server := s1; trace := trace w ++ [announce; EvRequest fetch] |}).
Proof.
  intro Hfetch. unfold get_ref_area_codelist. steps.
  erewrite run_try_uncaught; cycle 1.
  { rewrite run_send_fail with (s' := s1) by exact Hfetch. reflexivity. }
  { reflexivity. }
  tidy. reflexivity.
Qed.

Variables (resp : Response) (s1 : ServerState).
Hypothesis fetch_response : handle (server w) fetch = (Some resp, s1).

Lemma reader_fetched (doc : json) :
  json_loads (text resp) = Some doc ->
  reader w =
    bind (lift (codelist_items doc))
      (fun items => lift (ofold ref_area_step items []))
      {| server := s1; trace := trace w ++ [announce; EvRequest fetch] |}.
Proof.
  intro Hjson. unfold get_ref_area_codelist. steps.
  erewrite run_try_return; cycle 1.
  { send_ok fetch_response. unfold response_json, lift. rewrite Hjson. reflexivity. }
  tidy. reflexivity.
Qed.

(** A JSON object without ['Codelist']: [KeyError], uncaught; the
    process is left only on a body that is not JSON. *)
Theorem reader_document_without_codelist (d : list (str * json)) :
  json_loads (text resp) = Some (JDict d) ->
  dict_get (lit "Codelist") d = None ->
  reader w =
    (Raise (KeyError (JStr (lit "Codelist"))),
     {| server := s1; trace := trace w ++ [announce; EvRequest fetch] |}).
Proof.
  intros Hjson Hcl. rewrite (reader_fetched Hjson).
  rewrite run_lift_raise with (e := KeyError (JStr (lit "Codelist")));
    [reflexivity|].
  unfold codelist_items, getitem. now rewrite Hcl.
Qed.

(** The mapping has at most as many entries as the codelist has
    items, and none for an empty codelist. *)
Theorem reader_mapping_size (doc : json) (items : list json) (r : pydict) :
  json_loads (text resp) = Some doc ->
  codelist_items doc = Return items ->
  fst (reader w) = Return r ->
  List.length r <= List.length items /\ (items = [] -> r = []).
Proof.
  intros Hjson Hitems. rewrite (reader_fetched Hjson). lift_ok Hitems.
  unfold lift. cbn [fst]. intro H. split.
  - exact (ref_area_loop_length items [] H).
  - intros ->. cbn in H. now injection H as <-.
Qed.

(** An item whose first name value is a list or an object cannot be a
    key: [TypeError], uncaught. *)
Theorem reader_unhashable_name (doc : json) (it : list (str * json))
    (others : list json) (i v : json) (n0 : list (str * json)) (more : list json) :
  json_loads (text resp) = Some doc ->
  codelist_items doc = Return (JDict it :: others) ->
  dict_get (lit "id") it = Some i ->
  dict_get (lit "names") it = Some (JList (JDict n0 :: more)) ->
  dict_get (lit "value") n0 = Some v ->
  hashable v = false ->
  fst (reader w) = Raise TypeError.
Proof.
  intros Hjson Hitems Hid Hnames Hvalue Hv.
  rewrite (reader_fetched Hjson). lift_ok Hitems.
  unfold lift. cbn [fst ofold]. unfold ref_area_step at 1, getitem.
  rewrite Hid, Hnames. cbv -[lit dict_get ofold ref_area_step hashable pydict_insert].
  rewrite Hvalue. cbv -[lit dict_get ofold ref_area_step hashable pydict_insert].
  rewrite Hv. reflexivity.
Qed.

End ReaderPaths.

(** ** Authentication: when it fails, and what the header tells apart *)

Lemma utf8_encode_char_refuses (c : N) :
  is_scalar c = false -> Codec.utf8_encode_char c = Raise UnicodeEncodeError.
Proof.
  unfold is_scalar, is_code_point, is_surrogate, Codec.utf8_encode_char.
  intro H.
  destruct (c <? 128)%N eqn:E1; [exfalso|].
  { apply N.ltb_lt in E1. apply andb_false_iff in H as [H|H].
    - apply N.ltb_ge in H. lia.
    - apply negb_false_iff in H. apply andb_prop in H as [H _].
      apply N.leb_le in H. lia. }
  destruct (c <? 2048)%N eqn:E2; [exfalso|].
  { apply N.ltb_lt in E2. apply andb_false_iff in H as [H|H].
    - apply N.ltb_ge in H. lia.
    - apply negb_false_iff in H. apply andb_prop in H as [H _].
      apply N.leb_le in H. lia. }
  destruct (c <? 65536)%N eqn:E3.
  { apply N.ltb_lt in E3. apply andb_false_iff in H as [H|H].
    - apply N.ltb_ge in H. lia.
    - apply negb_false_iff in H. unfold is_surrogate. now rewrite H. }
  apply N.ltb_ge in E3.
  destruct (c <? 1114112)%N eqn:E4; [exfalso|reflexivity].
  apply andb_false_iff in H as [H|H]; [congruence|].
  apply negb_false_iff in H. apply andb_prop in H as [_ H].
  apply N.leb_le in H. lia.
Qed.

Lemma utf8_encode_refuses (s : str) :
  encodable s = false -> Codec.utf8_encode s = Raise UnicodeEncodeError.
Proof.
  induction s as [|c s IH]; cbn [encodable forallb Codec.utf8_encode];
    [discriminate|].
  destruct (is_scalar c) eqn:Ec; cbn [andb]; intro H.
  - destruct (CodecFacts.utf8_char_roundtrip c [] Ec) as (b & Eb & _).
    rewrite Eb. cbn [obind]. unfold encodable in IH. rewrite (IH H). reflexivity.
  - now rewrite (utf8_encode_char_refuses c Ec).
Qed.

Lemma encodable_app_inv (a b : str) :
  encodable (a ++ b) = encodable a && encodable b.
Proof. unfold encodable. apply forallb_app. Qed.

Lemma encodable_joined (u p : str) :
  encodable (u ++ lit ":" ++ p) = encodable u && encodable p.
Proof. rewrite !encodable_app_inv. reflexivity. Qed.

(** The header of encodable credentials and what it decodes to. *)
Lemma fmr_auth_token (api_params : ApiParams) (u p : str) :
  encodable u = true -> encodable p = true ->
  exists b,
    Codec.utf8_encode (u ++ lit ":" ++ p) = Return b
    /\ fmr_auth api_params u p =
       Return [(lit "Authorization", lit "Basic " ++ Codec.b64encode b);
               (lit "Content-Type", lit "application/json")]
    /\ Spec.decode_basic (lit "Basic " ++ Codec.b64encode b)
       = Some (u ++ lit ":" ++ p).
Proof.
  intros Hu Hp.
  assert (He : encodable (u ++ lit ":" ++ p) = true)
    by (rewrite encodable_joined, Hu, Hp; reflexivity).
  destruct (CodecFacts.utf8_roundtrip _ He) as (b & Eenc & Hoct & Edec).
  exists b. split; [exact Eenc|]. split.
  - unfold fmr_auth. rewrite Eenc. cbn [obind].
    rewrite (CodecFacts.b64encode_ascii Hoct). reflexivity.
  - unfold Spec.decode_basic. rewrite strip_prefix_app.
    rewrite (CodecFacts.b64_roundtrip Hoct). exact Edec.
Qed.

(** [fmr_auth] returns exactly when neither string holds a surrogate
    code point, and raises [UnicodeEncodeError] otherwise. *)
Theorem fmr_auth_error_condition (api_params : ApiParams) (u p : str) :
  ((exists h, fmr_auth api_params u p = Return h)
   <-> encodable u = true /\ encodable p = true)
  /\ (encodable u && encodable p = false ->
      fmr_auth api_params u p = Raise UnicodeEncodeError).
Proof.
  assert (Hfail : encodable u && encodable p = false ->
                  fmr_auth api_params u p = Raise UnicodeEncodeError).
  { intro H. unfold fmr_auth. rewrite utf8_encode_refuses; [reflexivity|].
    now rewrite encodable_joined. }
  split; [split|exact Hfail].
  - intros (h & Hh).
    destruct (encodable u && encodable p) eqn:E.
    + now apply andb_prop in E.
    + rewrite (Hfail eq_refl) in Hh. discriminate.
  - intros [Hu Hp]. destruct (fmr_auth_token api_params u p Hu Hp) as (b & _ & Ht & _).
    eauto.
Qed.

(** Two pairs of credentials give the same headers exactly when
    ["{user}:{password}"] is the same string: the header does not tell
    where the user name ends. *)
Theorem fmr_auth_same_headers (api_params api_params' : ApiParams) (u p u' p' : str) :
  encodable u = true -> encodable p = true ->
  encodable u' = true -> encodable p' = true ->
  (fmr_auth api_params u p = fmr_auth api_params' u' p'
   <-> u ++ lit ":" ++ p = u' ++ lit ":" ++ p').
Proof.
  intros Hu Hp Hu' Hp'. split.
  - intro E.
    destruct (fmr_auth_token api_params u p Hu Hp) as (b & _ & Ht & Dt).
    destruct (fmr_auth_token api_params' u' p' Hu' Hp') as (b' & _ & Ht' & Dt').
    rewrite Ht, Ht' in E. injection E as E.
    rewrite E in Dt. congruence.
  - intro E. unfold fmr_auth. now rewrite E.
Qed.

Lemma b64encode_length (b : bytes) : (List.length (Codec.b64encode b) mod 4 = 0)%nat.
Proof.
  induction b as [|x|x y|x y z l IH] using CodecFacts.list_ind3;
    cbn [Codec.b64encode List.length]; try reflexivity.
  change (S (S (S (S (List.length (Codec.b64encode l))))))
    with (4 + List.length (Codec.b64encode l))%nat.
  rewrite <- Nat.Div0.add_mod_idemp_r, IH. reflexivity.
Qed.

Lemma ascii_decode_ascii (b : bytes) (s : str) :
  Codec.ascii_decode b = Return s -> s = b /\ Forall (fun c => (c < 128)%N) b.
Proof.
  revert s. induction b as [|x b IH]; cbn [Codec.ascii_decode]; intros s H.
  - injection H as <-. split; constructor.
  - destruct (x <? 128)%N eqn:E; [|discriminate].
    destruct (Codec.ascii_decode b) as [s'| |]; try discriminate.
    injection H as <-. destruct (IH s' eq_refl) as [-> Hb].
    split; [reflexivity|]. constructor; [now apply N.ltb_lt|exact Hb].
Qed.

(** Whatever the credentials hold, the headers that are returned are
    these two, and the [Authorization] value is ["Basic "] followed by
    ASCII characters, four for every three octets. *)
Theorem fmr_auth_header_ascii (api_params : ApiParams) (u p : str) (h : headers) :
  fmr_auth api_params u p = Return h ->
  exists t,
    h = [(lit "Authorization", lit "Basic " ++ t);
         (lit "Content-Type", lit "application/json")]
    /\ Forall (fun c => (c < 128)%N) t
    /\ (List.length t mod 4 = 0)%nat.
Proof.
  unfold fmr_auth.
  destruct (Codec.utf8_encode (u ++ lit ":" ++ p)) as [b| |]; try discriminate.
  cbn [obind].
  destruct (Codec.ascii_decode (Codec.b64encode b)) as [t| |] eqn:Et; try discriminate.
  cbn [obind]. intro H. injection H as <-.
  destruct (ascii_decode_ascii _ Et) as [-> Hascii].
  exists (Codec.b64encode b). repeat split; [exact Hascii|apply b64encode_length].
Qed.

(** ** The batch validator *)






Lemma parallel_results_set (f : str) (res : bool * json)
    (validated : list (str * bool)) (error : list (str * json)) :
  result_shape res -> parallel_results validated error ->
  parallel_results (dict_set f (fst res) validated) (dict_set f (snd res) error).
Proof.
  intros Hres H. unfold parallel_results in *.
  induction H as [|[k b] [k' d] v e [Hk Hs] Htail IH]; cbn [dict_set].
  - constructor; [|constructor]. split; [reflexivity|]. now destruct res.
  - cbn [fst snd] in Hk. subst k'. destruct (str_eqb f k).
    + constructor; [|exact Htail]. split; [reflexivity|]. now destruct res.
    + constructor; [|exact IH]. now split.
Qed.

Lemma parallel_results_keys (validated : list (str * bool)) (error : list (str * json)) :
  parallel_results validated error -> dict_keys validated = dict_keys error.
Proof.
  induction 1 as [|v e vs es [Hk _] _ IH]; [reflexivity|].
  unfold dict_keys in *. cbn [map]. now rewrite Hk, IH.
Qed.

Lemma dict_get_none_keys {V} (k : str) (d : list (str * V)) :
  dict_get k d = None <-> ~ In k (dict_keys d).
Proof.
  unfold dict_keys. induction d as [|[k1 v1] d IH]; cbn [dict_get map In fst].
  - tauto.
  - destruct (str_eqb k k1) eqn:E.
    + apply str_eqb_eq in E. subst. split; [discriminate|]. intro H. destruct H. now left.
    + rewrite IH. split.
      * intros H [H1|H1]; [|now apply H].
        subst k1. now rewrite str_eqb_refl in E.
      * intros H H1. apply H. now right.
Qed.

Section BatchValidator.

Variable json_loads : str -> option json.
Variable ServerState : Type.
Variable handle : ServerState -> request -> option Response * ServerState.
Variable read_file : str -> option bytes.
Variable credentials : Credentials.
Variable abspath_cwd : str.

Variables (api_params : ApiParams) (folder_name delimiter : str).

Local Abbreviation validate_all datasets boolean :=
  (validate_datasets_fmr json_loads handle read_file credentials abspath_cwd
     api_params datasets folder_name boolean delimiter).

Local Abbreviation loop :=
  (validate_loop json_loads handle read_file credentials api_params).

Lemma loop_parallel (path : str) (filenames : list str) :
  forall validated error,
    parallel_results validated error ->
    ensures (loop path delimiter filenames validated error)
            (fun res => parallel_results (fst res) (snd res)).
Proof.
  induction filenames as [|f l IH]; intros validated error H; cbn [validate_loop].
  - now apply ensures_ret.
  - apply ensures_bind. intros _.
    eapply ensures_bind_with.
    + apply validate_shape.
    + intros res Hres. apply IH. now apply parallel_results_set.
Qed.

Lemma loop_keys (path : str) (filenames : list str) :
  NoDup filenames ->
  forall validated error,
    (forall f, In f filenames -> ~ In f (dict_keys validated)) ->
    ensures (loop path delimiter filenames validated error)
            (fun res => dict_keys (fst res) = dict_keys validated ++ filenames).
Proof.
  induction 1 as [|f l Hf Hl IH]; intros validated error Hnew; cbn [validate_loop].
  - apply ensures_ret. cbn [fst]. now rewrite app_nil_r.
  - apply ensures_bind. intros _. apply ensures_bind. intros res.
    assert (Hkeys : dict_keys (dict_set f (fst res) validated) = dict_keys validated ++ [f]).
    { apply dict_keys_set_new. apply dict_get_none_keys. apply Hnew. now left. }
    intros w r w' E.
    pose proof (IH (dict_set f (fst res) validated) (dict_set f (snd res) error)) as IH'.
    rewrite Hkeys in IH'. rewrite <- app_assoc in IH'. cbn [app] in IH'.
    refine (IH' _ w r w' E).
    intros g Hg Hin. apply in_app_or in Hin as [Hin|[<-|[]]].
    + apply (Hnew g); [now right|exact Hin].
    + now apply Hf.
Qed.

(** The result is [None] exactly when the gate is [False]: then
    nothing is done, whatever the datasets; with the gate [True] a
    returned result is never [None]. *)
Theorem batch_validator_gate (datasets : list (str * json)) :
  (forall w, validate_all datasets false w = (Return None, w))
  /\ ensures (validate_all datasets true) (fun res => res <> None).
Proof.
  split; [reflexivity|].
  unfold validate_datasets_fmr. do 2 (apply ensures_bind; intro).
  now apply ensures_ret.
Qed.

(** The two result dicts of a batch go together: the same file names
    in the same order, under each name a well-formed result; the names
    are those of [datasets], in its order. *)
Theorem batch_validator_results (datasets : list (str * json)) :
  NoDup (dict_keys datasets) ->
  ensures (validate_all datasets true)
    (fun res => exists validated error,
       res = Some (validated, error)
       /\ parallel_results validated error
       /\ dict_keys validated = dict_keys datasets
       /\ dict_keys error = dict_keys datasets).
Proof.
  intro Hnodup. unfold validate_datasets_fmr.
  apply ensures_bind. intros _.
  eapply ensures_bind_with with
    (Q := fun res => parallel_results (fst res) (snd res)
                     /\ dict_keys (fst res) = dict_keys datasets).
  - intros w res w' E. split.
    + pose proof (loop_parallel (export_path abspath_cwd folder_name)
                    (dict_keys datasets) (Forall2_nil _)) as HP.
      exact (HP w res w' E).
    + pose proof (loop_keys (export_path abspath_cwd folder_name) Hnodup [] []
                    (fun f _ H => H)) as HK.
      exact (HK w res w' E).
  - intros [validated error] [Hpar Hkeys]. apply ensures_ret.
    exists validated, error. cbn [fst snd] in *. repeat split; try assumption.
    now rewrite <- (parallel_results_keys Hpar).
Qed.

(** A batch of [n] files sends at most [n] POSTs and at most [n] GETs,
    and none at all with the gate [False]. *)
Theorem batch_validator_budget (datasets : list (str * json)) (boolean : bool) :
  at_most is_post (List.length datasets) (validate_all datasets boolean)
  /\ at_most is_get (List.length datasets) (validate_all datasets boolean)
  /\ at_most is_post 0 (validate_all datasets false)
  /\ at_most is_get 0 (validate_all datasets false).
Proof.
  assert (Hloop : forall p, p = is_post \/ p = is_get ->
            forall path l validated error,
              at_most p (List.length l) (loop path delimiter l validated error)).
  { intros p Hp path l. induction l as [|f l IH]; intros validated error;
      cbn [validate_loop List.length].
    - apply at_most_ret.
    - change (S (List.length l)) with (0 + (1 + List.length l)).
      apply at_most_bind.
      + apply at_most_log_0. now destruct Hp as [-> | ->].
      + intros _. apply at_most_bind; [now apply validate_budget|].
        intro res. apply IH. }
  assert (Hall : forall p, p = is_post \/ p = is_get ->
            at_most p (List.length datasets) (validate_all datasets boolean)).
  { intros p Hp. unfold validate_datasets_fmr. destruct boolean.
    - eapply at_most_weaken.
      + apply at_most_bind.
        * apply at_most_log_0. now destruct Hp as [-> | ->].
        * intros _. apply at_most_bind; [now apply Hloop|].
          intros res. apply at_most_ret.
      + unfold dict_keys. rewrite length_map. lia.
    - eapply at_most_weaken; [apply at_most_ret|lia]. }
  repeat split; try (apply Hall; auto); apply at_most_ret.
Qed.

Variable w : world ServerState.
Variable auth_headers : headers.
Hypothesis auth_ok :
  fmr_auth api_params (user credentials) (password credentials) = Return auth_headers.

(** A file that cannot be opened ends the batch with the exception of
    [open] ([OSError] for a path that can be encoded and holds no NUL):
    the files after it are not validated and no result is returned. *)
Theorem batch_validator_unreadable_file (filename : str) (meta : json)
    (others : list (str * json)) :
  read_file (path_join (export_path abspath_cwd folder_name) [filename]) = None ->
  validate_datasets_fmr json_loads handle read_file credentials abspath_cwd
    api_params ((filename, meta) :: others) folder_name true delimiter w =
    (Raise (open_failure (path_join (export_path abspath_cwd folder_name) [filename])),
     {| server := server w;
        trace := trace w ++
          [EvLog (lit ">>>>> Validating files against DSD...") [];
           EvLog (lit ">>>>>>> File: %s") [JStr filename];
           EvOpen (path_join (export_path abspath_cwd folder_name) [filename])] |})
  /\ (fs_encodable (path_join (export_path abspath_cwd folder_name) [filename]) = true ->
      has_nul (path_join (export_path abspath_cwd folder_name) [filename]) = false ->
      open_failure (path_join (export_path abspath_cwd folder_name) [filename])
      = OSError).
Proof.
  intro Hfile. split.
  - unfold validate_datasets_fmr. steps.
    cbn [dict_keys map fst validate_loop]. steps. cbv zeta.
    unfold validate_single_dataset_fmr.
    lift_ok auth_ok. rewrite run_open_fail by exact Hfile. tidy. reflexivity.
  - unfold open_failure. intros -> ->. reflexivity.
Qed.

End BatchValidator.

(** ** The further properties at concrete runs *)

Module MoreRuns.

Import Mock.

Local Abbreviation validate_on files creds s :=
  (validate_single_dataset_fmr (decoder Cases.table) scripted files creds api
     (lit "data.csv") (lit "comma") (start s)).

Local Abbreviation add_on id descr s :=
  (add_single_item_to_codelist (decoder Cases.table) scripted creds api
     (lit "CL_REF_AREA") id descr (lit "WB") (lit "MERGE") (start s)).

Local Abbreviation upload :=
  [EvOpen (lit "data.csv");
   EvRequest (load_request api csv (lit "comma"));
   EvSleep 5].

Lemma validate_result_shape_run :
  result_shape (false, JDict [(lit "ValidationReport",
                               JStr (lit "Error with load endpoint"))]).
Proof.
  exact (validate_result_shape (decoder Cases.table) scripted files creds api
           (lit "data.csv") (lit "comma") (start [server_error]) eq_refl).
Defined.

Lemma validate_request_budget_run :
  count is_post (trace (snd (validate_on files creds [ok load_body; ok status_ok_body])))
  <= 1.
Proof.
  apply (proj1 (validate_request_budget (decoder Cases.table) scripted files creds api
                  (lit "data.csv") (lit "comma"))
           (start [ok load_body; ok status_ok_body])).
Defined.

Lemma validate_missing_file_run :
  validate_on Cases.no_files creds [ok load_body] =
  (Raise OSError, {| server := [ok load_body]; trace := [EvOpen (lit "data.csv")] |})
  /\ fst (validate_single_dataset_fmr (decoder Cases.table) scripted Cases.no_files
            creds api [55296%N] (lit "comma") (start [ok load_body]))
     = Raise UnicodeEncodeError.
Proof.
  split.
  - destruct (validate_missing_file (decoder Cases.table) scripted Cases.no_files creds
                api (lit "data.csv") (lit "comma") (start [ok load_body])
                (auth_headers := auth) eq_refl eq_refl) as [H _].
    rewrite H. reflexivity.
  - destruct (validate_missing_file (decoder Cases.table) scripted Cases.no_files creds
                api [55296%N] (lit "comma") (start [ok load_body])
                (auth_headers := auth) eq_refl eq_refl) as [H _].
    rewrite H. reflexivity.
Defined.

Lemma validate_load_body_not_json_run :
  fst (validate_on files creds [ok blocked_body]) =
  Return (false, JDict [(lit "ValidationReport",
                         JStr (lit "Cannot connect to FMR instance"))]).
Proof.
  erewrite (validate_load_body_not_json (decoder Cases.table) scripted files creds api
              (lit "data.csv") (lit "comma") (start [ok blocked_body]));
    reflexivity.
Defined.

Lemma validate_load_body_without_uid_run :
  fst (validate_on files creds [ok Cases.empty_body]) =
  Raise (KeyError (JStr (lit "uid"))).
Proof.
  erewrite (validate_load_body_without_uid (decoder Cases.table) scripted files creds api
              (lit "data.csv") (lit "comma") (start [ok Cases.empty_body]));
    reflexivity.
Defined.

Lemma validate_status_body_not_json_run :
  fst (validate_on files creds [ok load_body; ok blocked_body]) =
  Return (false, JDict [(lit "ValidationReport",
                         JStr (lit "Cannot connect to FMR instance"))]).
Proof.
  erewrite (validate_status_body_not_json (decoder Cases.table) scripted files creds api
              (lit "data.csv") (lit "comma") (start [ok load_body; ok blocked_body]));
    reflexivity.
Defined.

Lemma validate_session_timed_out_run :
  fst (validate_on files creds [ok load_body; ok Cases.timeout_body]) =
  Return (false, JDict [(lit "ValidationReport", JStr (lit "Session timed out"))]).
Proof.
  erewrite (validate_session_timed_out (decoder Cases.table) scripted files creds api
              (lit "data.csv") (lit "comma")
              (start [ok load_body; ok Cases.timeout_body]));
    reflexivity.
Defined.

Lemma validate_errors_without_datasets_run :
  fst (validate_on files creds [ok load_body; ok Cases.errors_only_body]) =
  Raise (KeyError (JStr (lit "Datasets"))).
Proof.
  erewrite (validate_errors_without_datasets (decoder Cases.table) scripted files creds api
              (lit "data.csv") (lit "comma")
              (start [ok load_body; ok Cases.errors_only_body]));
    reflexivity.
Defined.

Lemma validate_empty_validation_report_run :
  fst (validate_on files creds [ok load_body; ok Cases.empty_report_body]) =
  Raise IndexError.
Proof.
  eapply (validate_empty_validation_report (decoder Cases.table) scripted files creds api
            (lit "data.csv") (lit "comma")
            (start [ok load_body; ok Cases.empty_report_body]))
    with (good := []) (others := []);
    reflexivity.
Defined.

Lemma replace_items_read_back_run :
  codelist_items codelist_doc_with_a
  = Return [temp_payload (lit "AAA") (lit "First")].
Proof.
  apply (replace_items_read_back codelist_doc (temp_payload (lit "AAA") (lit "First"))).
  reflexivity.
Defined.

Lemma writer_request_budget_run :
  count is_get (trace (snd (add_on (lit "AAA") (lit "First")
                               [ok blocked_body; ok blocked_body]))) <= 2.
Proof.
  apply (proj2 (writer_request_budget (decoder Cases.table) scripted creds api
                  (lit "CL_REF_AREA") (lit "AAA") (lit "First") (lit "WB") (lit "MERGE"))
           (start [ok blocked_body; ok blocked_body])).
Defined.

Lemma authentication_failure_first_run :
  add_single_item_to_codelist (decoder Cases.table) scripted Cases.bad_creds api
    (lit "CL_REF_AREA") (lit "AAA") (lit "First") (lit "WB") (lit "MERGE")
    (start [ok codelist_body])
  = (Raise UnicodeEncodeError, start [ok codelist_body]).
Proof.
  apply (authentication_failure_first (decoder Cases.table) scripted files
           Cases.bad_creds api (lit "CL_REF_AREA") (lit "AAA") (lit "First")
           (lit "WB") (lit "MERGE") (lit "data.csv") (lit "comma")
           (start [ok codelist_body])).
  reflexivity.
Defined.

Lemma writer_document_without_codelist_run :
  fst (add_on (lit "AAA") (lit "First") [ok Cases.refused_body]) =
  Raise (KeyError (JStr (lit "Codelist"))).
Proof.
  erewrite (writer_document_without_codelist (decoder Cases.table) scripted creds api
              (lit "CL_REF_AREA") (lit "AAA") (lit "First") (lit "WB") (lit "MERGE")
              (start [ok Cases.refused_body]));
    reflexivity.
Defined.

Lemma writer_post_accepted_run :
  fst (add_on (lit "AAA") (lit "First") [ok codelist_body; ok (lit "Success")]) =
  Return true.
Proof.
  erewrite (writer_post_accepted (decoder Cases.table) scripted creds api
              (lit "CL_REF_AREA") (lit "AAA") (lit "First") (lit "WB") (lit "MERGE")
              (start [ok codelist_body; ok (lit "Success")]));
    reflexivity.
Defined.

Lemma writer_post_refused_run :
  filter is_log (trace (snd (add_on (lit "AAA") (lit "First")
                               [ok codelist_body; ok Cases.refused_body])))
  = [EvLog (lit ">>>>>>>>> %s") [Cases.refused_doc]]
  /\ fst (add_on (lit "AAA") (lit "First") [ok codelist_body; ok Cases.refused_body])
     = Return true.
Proof.
  erewrite (writer_post_refused (decoder Cases.table) scripted creds api
              (lit "CL_REF_AREA") (lit "AAA") (lit "First") (lit "WB") (lit "MERGE")
              (start [ok codelist_body; ok Cases.refused_body]));
    try reflexivity.
  split; reflexivity.
Defined.

Lemma writer_post_reply_not_json_run :
  exists e s3,
    add_on (lit "AAA") (lit "First") [ok codelist_body; ok blocked_body; ok blocked_body]
    = (Raise e,
       {| server := s3;
          trace :=
            [EvRequest (Get (codelist_url api (lit "WB") (lit "CL_REF_AREA")) []);
             EvRequest (Post (add_item_url api)
                             (auth ++ [(lit "ACTION", lit "MERGE")])
                             (JsonBody codelist_doc_with_a));
             EvRequest (Get (codelist_url api (lit "WB") (lit "CL_REF_AREA")) [])] |}).
Proof.
  eapply (writer_post_reply_not_json (decoder Cases.table) scripted creds api
            (lit "CL_REF_AREA") (lit "AAA") (lit "First") (lit "WB") (lit "MERGE")
            (start [ok codelist_body; ok blocked_body; ok blocked_body]))
    with (auth_headers := auth) (body := codelist_doc_with_a);
    reflexivity.
Defined.

Lemma batch_request_budget_run :
  count is_post
    (trace (snd (add_items_to_codelist (decoder Cases.table) scripted creds api
                   (lit "CL_REF_AREA") [item_a; item_b] (lit "WB") (lit "MERGE")
                   (start [ok codelist_body; ok (lit "Success");
                           ok codelist_body; ok (lit "Success")]))))
  <= 2.
Proof.
  apply (proj1 (batch_request_budget (decoder Cases.table) scripted creds api
                  (lit "CL_REF_AREA") (lit "WB") (lit "MERGE") [item_a; item_b])
           (start [ok codelist_body; ok (lit "Success");
                   ok codelist_body; ok (lit "Success")])).
Defined.

Lemma batch_item_without_description_run :
  fst (add_items_to_codelist (decoder Cases.table) scripted creds api
         (lit "CL_REF_AREA") [[(lit "id", lit "AAA")]; item_b] (lit "WB") (lit "MERGE")
         (start [ok codelist_body]))
  = Raise (KeyError (JStr (lit "description"))).
Proof.
  exact (f_equal fst
           (batch_item_without_description (decoder Cases.table) scripted creds api
              (lit "CL_REF_AREA") (lit "WB") (lit "MERGE") (start [ok codelist_body])
              [(lit "id", lit "AAA")] [item_b] (item_id := lit "AAA")
              eq_refl eq_refl)).
Defined.

Lemma reader_request_budget_run :
  count is_post (trace (snd (get_ref_area_codelist (decoder Cases.table) scripted api
                               (start [ok codelist_body])))) <= 0.
Proof.
  apply (proj1 (reader_request_budget (decoder Cases.table) scripted api)
           (start [ok codelist_body])).
Defined.

Lemma reader_keys_distinct_run :
  distinct_keys [(JStr (lit "Not classified"), JStr (lit "INX"))] = true.
Proof.
  exact (reader_keys_distinct (decoder Cases.table) scripted api
           (start [ok codelist_body]) eq_refl).
Defined.

Lemma reader_document_without_codelist_run :
  fst (get_ref_area_codelist (decoder Cases.table) scripted api
         (start [ok Cases.refused_body]))
  = Raise (KeyError (JStr (lit "Codelist"))).
Proof.
  erewrite (reader_document_without_codelist (decoder Cases.table) scripted api
              (start [ok Cases.refused_body]));
    reflexivity.
Defined.

Lemma fmr_auth_error_condition_run :
  fmr_auth api [55296%N] (lit "password") = Raise UnicodeEncodeError.
Proof.
  apply (proj2 (fmr_auth_error_condition api [55296%N] (lit "password"))).
  reflexivity.
Defined.

Lemma fmr_auth_same_headers_run :
  fmr_auth api (lit "a:b") (lit "c") = fmr_auth api (lit "a") (lit "b:c").
Proof.
  apply (fmr_auth_same_headers api api (lit "a:b") (lit "c") (lit "a") (lit "b:c"));
    reflexivity.
Defined.

Local Abbreviation validate_all_on files datasets gate s :=
  (validate_datasets_fmr (decoder Cases.table) scripted files creds cwd api
     datasets (lit "export") gate (lit "comma") (start s)).

Lemma batch_validator_gate_run :
  validate_all_on files [(lit "a.csv", JNull)] false [ok load_body]
  = (Return None, start [ok load_body]).
Proof.
  apply (proj1 (batch_validator_gate (decoder Cases.table) scripted files creds cwd api
                  (lit "export") (lit "comma") [(lit "a.csv", JNull)])).
Defined.

Lemma batch_validator_results_run :
  exists validated error,
    Some ([(lit "a.csv", true); (lit "b.csv", false)],
          [(lit "a.csv", JDict []);
           (lit "b.csv", JDict [(lit "ValidationReport",
                                 JStr (lit "Error with load endpoint"))])])
    = Some (validated, error)
    /\ parallel_results validated error
    /\ dict_keys validated = [lit "a.csv"; lit "b.csv"]
    /\ dict_keys error = [lit "a.csv"; lit "b.csv"].
Proof.
  refine (batch_validator_results (decoder Cases.table) scripted files creds cwd api
            (lit "export") (lit "comma")
            [(lit "a.csv", JNull); (lit "b.csv", JNull)] _
            (start [ok load_body; ok status_ok_body; server_error]) eq_refl).
  repeat constructor; cbn; intuition discriminate.
Defined.

Lemma batch_validator_budget_run :
  count is_get
    (trace (snd (validate_all_on files [(lit "a.csv", JNull); (lit "b.csv", JNull)] true
                   [ok load_body; ok status_ok_body; server_error])))
  <= 2.
Proof.
  apply (proj1 (proj2 (batch_validator_budget (decoder Cases.table) scripted files creds
                         cwd api (lit "export") (lit "comma")
                         [(lit "a.csv", JNull); (lit "b.csv", JNull)] true))
           (start [ok load_body; ok status_ok_body; server_error])).
Defined.

Lemma batch_validator_unreadable_file_run :
  fst (validate_all_on Cases.no_files [(lit "a.csv", JNull); (lit "b.csv", JNull)] true
         [ok load_body])
  = Raise OSError.
Proof.
  destruct (batch_validator_unreadable_file (decoder Cases.table) scripted Cases.no_files
              creds cwd api (lit "export") (lit "comma") (start [ok load_body])
              (auth_headers := auth) eq_refl
              (lit "a.csv") JNull [(lit "b.csv", JNull)] eq_refl) as [H _].
  exact (f_equal fst H).
Defined.



End MoreRuns.
